(** * The Tower: simulation core (rectangles, entity state machine,
      sub-stepped physics, block variants, texture table)

    A shallow embedding of [src/modules/physics.py], [src/modules/block.py],
    [src/modules/entities.py] and [src/modules/textureset.py], with the
    frame time of [src/main.py], and the properties of the specification
    checked against it.

    Conventions of the embedding.
    - Pixel coordinates and velocities are Python integers: [Z].
    - Elapsed time is a Python float, an IEEE 754 double: the kernel's
      primitive [float], with the correctly rounded operations of the
      hardware.  [int_of_float] is [int()] and [float_rem] is [%] on floats.
    - The hitbox fractions of the texture table and the half pixel of the
      ladder's sensor are decimal literals and are kept as exact rationals
      ([Q], with [py_int] for [int()]); on every row of the table
      [int(fraction * 25)] is the same integer in doubles.
    - Objects mutated in place (an entity, a block) are passed in and
      returned; the event queue and the messages sent to an entity are
      explicit lists. *)

From Stdlib Require Import ZArith QArith Qround Lia Lqa List Bool.
From Stdlib Require PrimFloat FloatOps SpecFloat.
From stdpp Require Import base option strings gmap.
Import ListNotations.
Import PrimFloat.PrimFloatNotations.

Local Open Scope Z_scope.

(** ** pygame.Rect *)

Record Rect := mkRect { x : Z; y : Z; width : Z; height : Z }.

Definition left (r : Rect) : Z := x r.
Definition top (r : Rect) : Z := y r.
Definition right (r : Rect) : Z := x r + width r.
Definition bottom (r : Rect) : Z := y r + height r.
(** The center halves the size as integers; sizes are not negative. *)
Definition centerx (r : Rect) : Z := x r + width r / 2.
Definition centery (r : Rect) : Z := y r + height r / 2.

(** Assignments [r.x = v], [r.left = v], [r.bottom = v], ...: the rectangle
    is moved, its size is kept. *)
Definition set_x (v : Z) (r : Rect) : Rect := mkRect v (y r) (width r) (height r).
Definition set_y (v : Z) (r : Rect) : Rect := mkRect (x r) v (width r) (height r).
Definition set_left (v : Z) (r : Rect) : Rect := set_x v r.
Definition set_top (v : Z) (r : Rect) : Rect := set_y v r.
Definition set_right (v : Z) (r : Rect) : Rect := set_x (v - width r) r.
Definition set_bottom (v : Z) (r : Rect) : Rect := set_y (v - height r) r.

(** [r.collidepoint(px, py)]: the right and bottom edges are outside. *)
Definition collidepoint (r : Rect) (px py : Z) : bool :=
  (x r <=? px) && (px <? x r + width r) && (y r <=? py) && (py <? y r + height r).

(** [a.colliderect(b)]: rectangles of size zero collide with nothing, and
    touching edges do not collide. *)
Definition colliderect (a b : Rect) : bool :=
  if (width a =? 0) || (height a =? 0) || (width b =? 0) || (height b =? 0)
  then false
  else (Z.min (x a) (x a + width a) <? Z.max (x b) (x b + width b))
       && (Z.min (y a) (y a + height a) <? Z.max (y b) (y b + height b))
       && (Z.max (x a) (x a + width a) >? Z.min (x b) (x b + width b))
       && (Z.max (y a) (y a + height a) >? Z.min (y b) (y b + height b)).

(** ** Enumerations *)

(** Modelled from the spec: [modules/entitystate.py] is not among the
    sources; the spec gives Direction as the enum LEFT, RIGHT whose reverse
    swaps the value. *)
Inductive Direction := LEFT | RIGHT.

Definition get_reverse (d : Direction) : Direction :=
  match d with LEFT => RIGHT | RIGHT => LEFT end.

(** Modelled from the spec: EntityState is the enum IDLE, WALKING, JUMPING,
    HANGING, CLIMBING of [modules/entitystate.py]. *)
Inductive EntityState := IDLE | WALKING | JUMPING | HANGING | CLIMBING.

(** Modelled from the spec: the message kinds an entity receives; the
    control component sends the string "JUMP". *)
Inductive EntityMessage := JUMP | LAND_ON_SPIKE | RECEIVE_COIN.

(** Modelled from the spec: the one event kind of [GameEvent] that the
    blocks post. *)
Inductive GameEvent := SWITCH_LEVEL.

Inductive Key := K_LEFT | K_RIGHT | K_UP | K_DOWN | K_SPACE.

#[global] Instance Direction_eq_dec : EqDecision Direction.
Proof. solve_decision. Defined.
#[global] Instance EntityState_eq_dec : EqDecision EntityState.
Proof. solve_decision. Defined.
#[global] Instance EntityMessage_eq_dec : EqDecision EntityMessage.
Proof. solve_decision. Defined.

Definition state_is (s t : EntityState) : bool := bool_decide (s = t).
Definition direction_is (d c : Direction) : bool := bool_decide (d = c).

(** ** Entities ([entities.py]) *)

(** The fields of [Entity.__init__] and the [rect] its subclasses add.
    [message] is abstract in the source ([Player.message] hands the message
    to its components); here the messages received are kept in order. *)
Record Entity := mkEntity {
  x_velocity : Z;
  y_velocity : Z;
  direction : Direction;
  state : EntityState;
  entity_rect : Rect;
  messages : list EntityMessage
}.

Definition set_x_velocity (v : Z) (e : Entity) : Entity :=
  mkEntity v (y_velocity e) (direction e) (state e) (entity_rect e) (messages e).
Definition reverse_x_velocity (e : Entity) : Entity :=
  set_x_velocity (- x_velocity e) e.
Definition set_y_velocity (v : Z) (e : Entity) : Entity :=
  mkEntity (x_velocity e) v (direction e) (state e) (entity_rect e) (messages e).
Definition get_direction (e : Entity) : Direction := direction e.
Definition set_direction (d : Direction) (e : Entity) : Entity :=
  mkEntity (x_velocity e) (y_velocity e) d (state e) (entity_rect e) (messages e).
Definition reverse_direction (e : Entity) : Entity :=
  set_direction (get_reverse (get_direction e)) e.
Definition get_state (e : Entity) : EntityState := state e.
Definition set_state (s : EntityState) (e : Entity) : Entity :=
  mkEntity (x_velocity e) (y_velocity e) (direction e) s (entity_rect e) (messages e).
Definition set_rect (r : Rect) (e : Entity) : Entity :=
  mkEntity (x_velocity e) (y_velocity e) (direction e) (state e) r (messages e).
Definition message (m : EntityMessage) (e : Entity) : Entity :=
  mkEntity (x_velocity e) (y_velocity e) (direction e) (state e) (entity_rect e)
           (messages e ++ [m]).

(** ** Blocks and the map *)

(** [Block]: the live hitbox and the hazard flag ([is_spike]). *)
Record Block := mkBlock { block_rect : Rect; is_spike : bool }.

(** What the physics reads of the game map. *)
Record GameMap := mkMap {
  map_rect : Rect;
  collideable_terrain_group : list Block
}.

(** Sprites are the objects with a [rect]. *)
Class Sprite (A : Type) := rect : A -> Rect.
#[global] Instance Entity_sprite : Sprite Entity := entity_rect.
#[global] Instance Block_sprite : Sprite Block := block_rect.

(** [pg.sprite.spritecollide(sprite, group, False)]: the sprites of the
    group whose rect collides with the sprite's, in group order; the list is
    built before the caller's loop runs. *)
Definition spritecollide `{Sprite A} `{Sprite B} (s : A) (group : list B) : list B :=
  List.filter (fun g => colliderect (rect s) (rect g)) group.

(** A conditional statement without else. *)
Definition when {A : Type} (c : bool) (f : A -> A) (a : A) : A :=
  if c then f a else a.

(** Statements in program order. *)
Notation "s1 >> s2" := (fun st => s2 (s1 st))
  (at level 61, left associativity, only parsing).

(** ** UserControlComponent ([physics.py]) *)

Module UserControlComponent.

Definition ZERO_VELOCITY : Z := 0.
Definition WALK_LEFT_VELOCITY : Z := -180.
Definition WALK_RIGHT_VELOCITY : Z := 180.
Definition JUMP_VELOCITY : Z := -750.
Definition CLIMB_UP_VELOCITY : Z := -120.
Definition CLIMB_DOWN_VELOCITY : Z := 180.

Definition handle_idle_entity (is_pressed : Key -> bool) : Entity -> Entity :=
  set_x_velocity ZERO_VELOCITY >>
  set_y_velocity ZERO_VELOCITY >>
  when (is_pressed K_LEFT)
    (set_state WALKING >> set_direction LEFT >> set_x_velocity WALK_LEFT_VELOCITY) >>
  when (is_pressed K_RIGHT)
    (set_state WALKING >> set_direction RIGHT >> set_x_velocity WALK_RIGHT_VELOCITY) >>
  when (is_pressed K_SPACE)
    (set_state JUMPING >> set_y_velocity JUMP_VELOCITY >> message JUMP).

Definition handle_walking_entity (is_pressed : Key -> bool) : Entity -> Entity :=
  when (is_pressed K_LEFT)
    (set_direction LEFT >> set_x_velocity WALK_LEFT_VELOCITY) >>
  when (is_pressed K_RIGHT)
    (set_direction RIGHT >> set_x_velocity WALK_RIGHT_VELOCITY) >>
  when (negb (is_pressed K_LEFT || is_pressed K_RIGHT))
    (set_state IDLE >> set_x_velocity ZERO_VELOCITY) >>
  when (is_pressed K_SPACE)
    (set_state JUMPING >> set_y_velocity JUMP_VELOCITY >> message JUMP).

Definition handle_jumping_entity (is_pressed : Key -> bool) : Entity -> Entity :=
  when (is_pressed K_LEFT)
    (set_x_velocity WALK_LEFT_VELOCITY >> set_direction LEFT) >>
  when (is_pressed K_RIGHT)
    (set_x_velocity WALK_RIGHT_VELOCITY >> set_direction RIGHT) >>
  when (negb (is_pressed K_LEFT || is_pressed K_RIGHT))
    (set_x_velocity ZERO_VELOCITY).

Definition handle_hanging_entity (is_pressed : Key -> bool) : Entity -> Entity :=
  set_x_velocity ZERO_VELOCITY >>
  set_y_velocity ZERO_VELOCITY >>
  when (is_pressed K_UP || is_pressed K_DOWN) (set_state CLIMBING) >>
  when (is_pressed K_LEFT) (set_direction RIGHT) >>
  when (is_pressed K_RIGHT) (set_direction LEFT) >>
  when (is_pressed K_SPACE)
    (set_state JUMPING >> set_y_velocity JUMP_VELOCITY >> message JUMP).

Definition handle_climbing_entity (is_pressed : Key -> bool) : Entity -> Entity :=
  when (is_pressed K_UP) (set_y_velocity CLIMB_UP_VELOCITY) >>
  when (is_pressed K_DOWN) (set_y_velocity CLIMB_DOWN_VELOCITY) >>
  when (negb (is_pressed K_UP || is_pressed K_DOWN)) (set_state HANGING).

(** [update]: the handler is chosen by the state on entry; the climbing
    handler runs on the state the first handler left. *)
Definition update (is_pressed : Key -> bool) (entity : Entity) : Entity :=
  let entity :=
    match get_state entity with
    | IDLE => handle_idle_entity is_pressed entity
    | WALKING => handle_walking_entity is_pressed entity
    | JUMPING => handle_jumping_entity is_pressed entity
    | HANGING => handle_hanging_entity is_pressed entity
    | CLIMBING => entity
    end in
  if state_is (get_state entity) CLIMBING
  then handle_climbing_entity is_pressed entity
  else entity.

End UserControlComponent.

(** ** Python floats *)

(** A Python float is an IEEE 754 double.  [PrimFloat.add], [PrimFloat.mul]
    and [PrimFloat.div] are Python's [+], [*] and [/] on floats; the
    conversions and the remainder are written out below from CPython's
    [floatobject.c].  The floats of the game are finite; where an operation
    would raise in Python, the comment says what it returns here. *)
(** The integer operand of a mixed operation ([i * f], [i + f]) is
    converted to the nearest double, ties to even.  An integer beyond the
    range of the doubles raises OverflowError in Python and is an infinity
    here. *)
Definition float_of_int (z : Z) : PrimFloat.float :=
  FloatOps.SF2Prim (SpecFloat.binary_normalize FloatOps.prec FloatOps.emax z 0 false).

(** [i / j] on two integers, for operands that are doubles exactly (below
    2^53 in magnitude): the quotient of the converted operands.  The
    divisors of the program are the constants 60, 1000 and 20. *)
Definition truediv (i j : Z) : PrimFloat.float :=
  (float_of_int i / float_of_int j)%float.

(** [int(f)]: truncation toward zero.  Python raises on an infinity
    (OverflowError) and on a NaN (ValueError); the value is 0 here. *)
Definition int_of_float (f : PrimFloat.float) : Z :=
  match FloatOps.Prim2SF f with
  | SpecFloat.S754_finite sign m e =>
      let magnitude := if 0 <=? e then Z.pos m * 2 ^ e else Z.pos m / 2 ^ (- e) in
      if sign then - magnitude else magnitude
  | _ => 0
  end.

(** C's [fmod(a, b)]: the remainder [a - n * b] for [n] the quotient
    truncated toward zero, without rounding (it is a double), with the sign
    of [a]. *)
Definition fmod (a b : PrimFloat.float) : PrimFloat.float :=
  match FloatOps.Prim2SF a, FloatOps.Prim2SF b with
  | SpecFloat.S754_finite sa ma ea, SpecFloat.S754_finite sb mb eb =>
      let e := Z.min ea eb in
      let r := Z.rem (Z.pos ma * 2 ^ (ea - e)) (Z.pos mb * 2 ^ (eb - e)) in
      if r =? 0
      then (if sa then PrimFloat.neg_zero else PrimFloat.zero)
      else FloatOps.SF2Prim
             (SpecFloat.binary_normalize FloatOps.prec FloatOps.emax
                (if sa then - r else r) e false)
  | SpecFloat.S754_zero _, SpecFloat.S754_finite _ _ _ => a
  | SpecFloat.S754_zero _, SpecFloat.S754_infinity _ => a
  | SpecFloat.S754_finite _ _ _, SpecFloat.S754_infinity _ => a
  | _, _ => PrimFloat.nan
  end.

(** [a % b] on floats ([float_rem]): [fmod], moved by [b] when its sign is
    not the sign of [b]; a zero remainder takes the sign of [b].  Python
    raises ZeroDivisionError when [b] is zero; the one divisor of the
    program is the constant [1 / 60]. *)
Definition float_rem (a b : PrimFloat.float) : PrimFloat.float :=
  let mod_ := fmod a b in
  if (mod_ =? PrimFloat.zero)%float
  then (if (b <? PrimFloat.zero)%float then PrimFloat.neg_zero else PrimFloat.zero)
  else if xorb (b <? PrimFloat.zero)%float (mod_ <? PrimFloat.zero)%float
       then (mod_ + b)%float
       else mod_.

(** ** The fractions of the texture table, over [Q] *)

(** Python's [int(q)]: truncation toward zero. *)
Definition py_int (q : Q) : Z :=
  if Qle_bool 0 q then Qfloor q else Qceiling q.

(** [entity.rect.<edge> = v] and [entity.rect.<coordinate> += d]. *)
Definition on_rect (f : Rect -> Rect) (e : Entity) : Entity :=
  set_rect (f (rect e)) e.

(** ** Collision sides ([physics.py], module level) *)

Definition is_colliding_from_below `{Sprite A} `{Sprite B} (entity : A) (colliding_sprite : B) : bool :=
  (top (rect colliding_sprite) <? top (rect entity))
  && (top (rect entity) <? bottom (rect colliding_sprite)).

Definition is_colliding_from_above `{Sprite A} `{Sprite B} (entity : A) (colliding_sprite : B) : bool :=
  (top (rect colliding_sprite) <? bottom (rect entity))
  && (bottom (rect entity) <? bottom (rect colliding_sprite)).

Definition is_colliding_from_right `{Sprite A} `{Sprite B} (entity : A) (colliding_sprite : B) : bool :=
  (left (rect colliding_sprite) <? left (rect entity))
  && (left (rect entity) <? right (rect colliding_sprite)).

Definition is_colliding_from_left `{Sprite A} `{Sprite B} (entity : A) (colliding_sprite : B) : bool :=
  (left (rect colliding_sprite) <? right (rect entity))
  && (right (rect entity) <? right (rect colliding_sprite)).

(** ** PhysicsComponent ([physics.py]) *)

Module PhysicsComponent.

Definition GRAVITY : Z := 60.
Definition DISCRETE_TIMESTEP : PrimFloat.float := truediv 1 60.

(** The guard on gravity: the state is neither CLIMBING nor HANGING. *)
Definition feels_gravity (entity : Entity) : bool :=
  negb (state_is (get_state entity) CLIMBING)
  && negb (state_is (get_state entity) HANGING).

(** One iteration of the loop of [handle_y_collisions], on the entity and
    the local variable [isJumping].  The second test reads the rect the
    first branch may have moved. *)
Definition y_collision (st : Entity * bool) (colliding_sprite : Block) : Entity * bool :=
  let '(entity, isJumping) := st in
  let entity :=
    when (is_colliding_from_below entity colliding_sprite)
      (on_rect (set_top (bottom (rect colliding_sprite))) >> set_y_velocity 0)
      entity in
  if is_colliding_from_above entity colliding_sprite
  then (( when (state_is (get_state entity) JUMPING) (set_state IDLE) >>
          on_rect (set_bottom (top (rect colliding_sprite))) >>
          set_y_velocity 0 ) entity,
        false)
  else (entity, isJumping).

(** [handle_y_collisions], returning with the entity the final value of
    its local [isJumping]: [false] exactly when some block registered a
    landing (from-above) contact in this pass. *)
Definition handle_y_collisions_flag (entity : Entity) (map : GameMap) : Entity * bool :=
  let colliding_sprites := spritecollide entity (collideable_terrain_group map) in
  let '(entity, isJumping) := fold_left y_collision colliding_sprites (entity, true) in
  (if feels_gravity entity then when isJumping (set_state JUMPING) entity else entity,
   isJumping).

Definition handle_y_collisions (entity : Entity) (map : GameMap) : Entity :=
  fst (handle_y_collisions_flag entity map).

Definition x_collision (entity : Entity) (colliding_sprite : Block) : Entity :=
  if negb (is_spike colliding_sprite)
  then ( (fun e => when (is_colliding_from_right e colliding_sprite)
                     (on_rect (set_left (right (rect colliding_sprite)))) e) >>
         (fun e => when (is_colliding_from_left e colliding_sprite)
                     (on_rect (set_right (left (rect colliding_sprite)))) e) ) entity
  else entity.

Definition handle_x_collisions (entity : Entity) (map : GameMap) : Entity :=
  let colliding_sprites := spritecollide entity (collideable_terrain_group map) in
  fold_left x_collision colliding_sprites entity.

Definition handle_map_boundary_collisions (entity : Entity) (map : GameMap) : Entity :=
  let map_width := width (map_rect map) in
  let entity := when (top (rect entity) <? 0) (on_rect (set_top 0)) entity in
  if left (rect entity) <? 0 then on_rect (set_left 0) entity
  else if right (rect entity) >? map_width then on_rect (set_right map_width) entity
  else entity.

Definition num_full_steps (delta_time : PrimFloat.float) : Z :=
  int_of_float (delta_time / DISCRETE_TIMESTEP)%float.

Definition remainder_time (delta_time : PrimFloat.float) : PrimFloat.float :=
  float_rem delta_time DISCRETE_TIMESTEP.

(** [int(self.GRAVITY * t * 60)]: the product is taken from the left. *)
Definition gravity_gain (t : PrimFloat.float) : Z :=
  int_of_float (float_of_int GRAVITY * t * float_of_int 60)%float.

(** [entity.y_velocity += int(GRAVITY * t * 60)] under its guard. *)
Definition apply_gravity (t : PrimFloat.float) (entity : Entity) : Entity :=
  when (feels_gravity entity)
    (set_y_velocity (y_velocity entity + gravity_gain t))
    entity.

(** [entity.rect.y += int(entity.y_velocity * t)] and the same for x. *)
Definition y_displacement (t : PrimFloat.float) (entity : Entity) : Z :=
  int_of_float (float_of_int (y_velocity entity) * t)%float.
Definition x_displacement (t : PrimFloat.float) (entity : Entity) : Z :=
  int_of_float (float_of_int (x_velocity entity) * t)%float.
Definition move_y (t : PrimFloat.float) (entity : Entity) : Entity :=
  on_rect (fun r => set_y (y r + y_displacement t entity) r) entity.
Definition move_x (t : PrimFloat.float) (entity : Entity) : Entity :=
  on_rect (fun r => set_x (x r + x_displacement t entity) r) entity.

Section Update.

(** [self.handle_x_collisions]: the method the subclass overrides. *)
Variable self_handle_x_collisions : Entity -> GameMap -> Entity.
Variable map : GameMap.

(** The body of the loop over the full steps.  The second component is the
    list of the [isJumping] values the vertical passes of this tick ended
    with, oldest first. *)
Definition full_step (st : Entity * list bool) : Entity * list bool :=
  let '(entity, passes) := st in
  let entity := apply_gravity DISCRETE_TIMESTEP entity in
  let entity := move_y DISCRETE_TIMESTEP entity in
  let '(entity, isJumping) := handle_y_collisions_flag entity map in
  let entity := move_x DISCRETE_TIMESTEP entity in
  let entity := self_handle_x_collisions entity map in
  (entity, passes ++ [isJumping]).

(** The statements after the loop, for a sub-step of duration [t]: the
    vertical pass runs only when the vertical displacement is not zero. *)
Definition remainder_step (t : PrimFloat.float) (st : Entity * list bool) : Entity * list bool :=
  let '(entity, passes) := st in
  let entity := apply_gravity t entity in
  let moved := y_displacement t entity in
  let entity := move_y t entity in
  let '(entity, passes) :=
    if negb (moved =? 0)
    then let '(entity, isJumping) := handle_y_collisions_flag entity map in
         (entity, passes ++ [isJumping])
    else (entity, passes) in
  let entity := move_x t entity in
  let entity := self_handle_x_collisions entity map in
  (entity, passes).

(** The integration pass of [update]: the full steps, then the remainder. *)
Definition integrate (delta_time : PrimFloat.float) (entity : Entity) : Entity * list bool :=
  remainder_step (remainder_time delta_time)
    (Nat.iter (Z.to_nat (num_full_steps delta_time)) full_step (entity, [])).

Definition update_passes (delta_time : PrimFloat.float) (entity : Entity) : Entity * list bool :=
  let '(entity, passes) := integrate delta_time entity in
  (handle_map_boundary_collisions entity map, passes).

Definition update_with (delta_time : PrimFloat.float) (entity : Entity) : Entity :=
  fst (update_passes delta_time entity).

(** [delta_time] processed as one sub-step, without the decomposition. *)
Definition single_step (delta_time : PrimFloat.float) (entity : Entity) : Entity :=
  fst (remainder_step delta_time (entity, [])).

End Update.

Definition update (delta_time : PrimFloat.float) (entity : Entity) (game_map : GameMap) : Entity :=
  update_with handle_x_collisions game_map delta_time entity.

End PhysicsComponent.

(** ** EnemyPhysicsComponent ([physics.py]) *)

Module EnemyPhysicsComponent.

Definition x_collision (enemy : Entity) (colliding_sprite : Block) : Entity :=
  ( (fun e => when (is_colliding_from_right e colliding_sprite)
                (on_rect (set_left (right (rect colliding_sprite))) >>
                 set_direction RIGHT) e) >>
    (fun e => when (is_colliding_from_left e colliding_sprite)
                (on_rect (set_right (left (rect colliding_sprite))) >>
                 set_direction LEFT) e) >>
    reverse_x_velocity ) enemy.

Definition handle_x_collisions (enemy : Entity) (map : GameMap) : Entity :=
  let colliding_sprites := spritecollide enemy (collideable_terrain_group map) in
  fold_left x_collision colliding_sprites enemy.

(** The inherited [update], dispatching to the override. *)
Definition update (delta_time : PrimFloat.float) (enemy : Entity) (game_map : GameMap) : Entity :=
  PhysicsComponent.update_with handle_x_collisions game_map delta_time enemy.

End EnemyPhysicsComponent.

(** ** Terrain types and the texture table ([textureset.py]) *)

(** The image cut from a sprite sheet: the sheet and the area. *)
Record Surface := mkSurface { sheet : string; area : Rect }.

(** [TerrainType]: a texture and its hitbox, in fractions of a block. *)
Record TerrainType := mkTerrainType {
  image : Surface;
  block_pos_x : Q;
  block_pos_y : Q;
  block_width : Q;
  block_height : Q
}.

(** The constructor with its default arguments. *)
Definition TerrainType_default (image : Surface) : TerrainType :=
  mkTerrainType image 0 0 1 1.

(** The outcome of a dictionary access: the value, or KeyError. *)
Inductive result (A : Type) :=
| Ok (a : A)
| KeyError (key : string).
Arguments Ok {A} a.
Arguments KeyError {A} key.

Definition getitem {A : Type} (d : gmap string A) (key : string) : result A :=
  match d !! key with
  | Some a => Ok a
  | None => KeyError key
  end.

Module TextureSet.

Local Open Scope string_scope.

Definition ruby (r : Rect) : Surface :=
  mkSurface "assets/textures/environment/animated/ruby.png" r.
Definition tileset (r : Rect) : Surface :=
  mkSurface "assets/textures/environment/static/terrain.png" r.
Definition decorations (r : Rect) : Surface :=
  mkSurface "assets/textures/environment/static/decorations.png" r.

Definition textures : gmap string TerrainType :=
  list_to_map [
    ("SPIKES_UPRIGHT", mkTerrainType (decorations (mkRect 208 196 32 10)) 0 0.7 1 0.3);
    ("ENTRANCE/EXIT", mkTerrainType (tileset (mkRect 1584 464 32 28)) 0 (-0.5) 1 1.5);
    ("COIN", mkTerrainType (ruby (mkRect 0 0 15 16)) 0.2 0.2 0.6 0.6);
    ("FALLING_BLOCK", TerrainType_default (tileset (mkRect 208 672 32 32)));
    ("MOVING_BLOCK", TerrainType_default (tileset (mkRect 1424 656 32 32)));
    ("LADDER", TerrainType_default (decorations (mkRect 184 16 32 32)));
    ("PUSHABLE", TerrainType_default (decorations (mkRect 209 113 14 15)));
    ("CORNER_BOTTOM_LEFT", TerrainType_default (tileset (mkRect 160 720 32 32)));
    ("CORNER_BOTTOM_RIGHT", TerrainType_default (tileset (mkRect 512 720 32 32)));
    ("CORNER_TOP_LEFT_1", TerrainType_default (tileset (mkRect 160 448 32 32)));
    ("CORNER_TOP_LEFT_2", TerrainType_default (tileset (mkRect 192 448 32 32)));
    ("CORNER_TOP_LEFT_3", TerrainType_default (tileset (mkRect 160 480 32 32)));
    ("CORNER_TOP_LEFT_4", TerrainType_default (tileset (mkRect 192 480 32 32)));
    ("CORNER_TOP_RIGHT_1", TerrainType_default (tileset (mkRect 480 448 32 32)));
    ("CORNER_TOP_RIGHT_2", TerrainType_default (tileset (mkRect 512 448 32 32)));
    ("CORNER_TOP_RIGHT_3", TerrainType_default (tileset (mkRect 480 480 32 32)));
    ("CORNER_TOP_RIGHT_4", TerrainType_default (tileset (mkRect 512 480 32 32)));
    ("WALL_LEFT", TerrainType_default (tileset (mkRect 160 672 32 32)));
    ("WALL_RIGHT", TerrainType_default (tileset (mkRect 512 672 32 32)));
    ("CEILING", TerrainType_default (tileset (mkRect 240 448 32 32)));
    ("FLOOR", TerrainType_default (tileset (mkRect 240 720 32 32)));
    ("FLOOR_TOP_HALF", mkTerrainType (tileset (mkRect 240 720 32 16)) 0 0.48 1 0.52);
    ("BG_FILLER", TerrainType_default (tileset (mkRect 48 544 32 32)));
    ("BG_WALL", TerrainType_default (tileset (mkRect 1328 472 32 32)));
    ("BG_WALL_BOTTOM_HALF", mkTerrainType (tileset (mkRect 1328 488 32 16)) 0 0.48 1 0.52);
    ("BG_WINDOW_DOUBLE", mkTerrainType (tileset (mkRect 1088 240 144 128)) 0 0 4.5 4);
    ("BG_WINDOW_SINGLE", mkTerrainType (tileset (mkRect 1472 96 65 64)) (-0.5) (-0.40625) 2 2);
    ("BG_WINDOW_BARRED", mkTerrainType (tileset (mkRect 1552 119 32 42)) 0 (-0.28125) 1 1.28125);
    ("BG_SHELF_POTIONS", mkTerrainType (decorations (mkRect 16 64 32 64)) 0 (-1) 1 2);
    ("BG_SHELF_BOOKS", mkTerrainType (decorations (mkRect 16 144 32 64)) 0 (-1) 1 2);
    ("BG_SHELF_EMPTY", mkTerrainType (decorations (mkRect 64 144 32 64)) 0 (-1) 1 2);
    ("BG_BANNER_RED_LARGE_1", mkTerrainType (decorations (mkRect 304 305 112 80)) (-0.25) 0 3.5 2.5);
    ("BG_BANNER_RED_LARGE_2", mkTerrainType (decorations (mkRect 496 209 112 80)) (-0.25) 0 3.5 2.5)
  ].

Definition code_to_texture_dictionary : gmap string string :=
  list_to_map [
    ("SP", "SPIKES_UPRIGHT");
    ("GW", "ENTRANCE/EXIT");
    ("CN", "COIN");
    ("FB", "FALLING_BLOCK");
    ("MB", "MOVING_BLOCK");
    ("LB", "LADDER");
    ("PB", "PUSHABLE");
    ("f1", "FLOOR");
    ("f2", "FLOOR_TOP_HALF");
    ("l1", "WALL_LEFT");
    ("r1", "WALL_RIGHT");
    ("c1", "CEILING");
    ("bl", "CORNER_BOTTOM_LEFT");
    ("br", "CORNER_BOTTOM_RIGHT");
    ("k1", "CORNER_TOP_LEFT_1");
    ("k2", "CORNER_TOP_LEFT_2");
    ("k3", "CORNER_TOP_LEFT_3");
    ("k4", "CORNER_TOP_LEFT_4");
    ("k5", "CORNER_TOP_RIGHT_1");
    ("k6", "CORNER_TOP_RIGHT_2");
    ("k7", "CORNER_TOP_RIGHT_3");
    ("k8", "CORNER_TOP_RIGHT_4");
    ("xx", "BG_FILLER");
    ("wl", "BG_WALL");
    ("wb", "BG_WALL_BOTTOM_HALF");
    ("2w", "BG_WINDOW_DOUBLE");
    ("1w", "BG_WINDOW_SINGLE");
    ("bw", "BG_WINDOW_BARRED");
    ("s1", "BG_SHELF_POTIONS");
    ("s2", "BG_SHELF_BOOKS");
    ("s3", "BG_SHELF_EMPTY");
    ("b1", "BG_BANNER_RED_LARGE_1");
    ("b2", "BG_BANNER_RED_LARGE_2")
  ].

(** [self.textures[self.code_to_texture_dictionary[code]]]: the inner
    access is evaluated first, and either access may raise. *)
Definition get_texture_from_code (code : string) : result TerrainType :=
  match getitem code_to_texture_dictionary code with
  | Ok name => getitem textures name
  | KeyError key => KeyError key
  end.

End TextureSet.

(** ** Blocks ([block.py]) *)

Definition BLOCK_SIZE : Z := 25.

(** [Block.__init__]: the hitbox of the terrain type, placed at [(x, y)]. *)
Definition Block_init (type_object : TerrainType) (x y : Z) : Block :=
  mkBlock
    (mkRect (x + py_int (block_pos_x type_object * inject_Z BLOCK_SIZE))
            (y + py_int (block_pos_y type_object * inject_Z BLOCK_SIZE))
            (py_int (block_width type_object * inject_Z BLOCK_SIZE))
            (py_int (block_height type_object * inject_Z BLOCK_SIZE)))
    false.

(** The test shared by the resting-contact blocks: a lateral edge of the
    player lies strictly inside the block's horizontal extent. *)
Definition lateral_edge_inside (self player : Rect) : bool :=
  (left self <? left player) && (left player <? right self)
  || (left self <? right player) && (right player <? right self).

Module SpikeBlock.

Definition init (type_object : TerrainType) (x y : Z) : Block :=
  mkBlock (rect (Block_init type_object x y)) true.

Definition update (self : Block) (player : Entity) : Entity :=
  let player :=
    when (colliderect (rect self) (rect player))
      (on_rect (set_bottom (top (rect self)))) player in
  when (lateral_edge_inside (rect self) (rect player)
        && (top (rect self) =? bottom (rect player)))
    (message LAND_ON_SPIKE) player.

End SpikeBlock.

Module GatewayBlock.

Definition init (type_object : TerrainType) (x y : Z) : Block :=
  Block_init type_object x y.

(** [update] posts to the global event queue, which is threaded here. *)
Definition update (self : Block) (player : Entity) (queue : list GameEvent)
  : list GameEvent :=
  if collidepoint (rect player) (centerx (rect self)) (centery (rect self))
  then queue ++ [SWITCH_LEVEL]
  else queue.

End GatewayBlock.

Module MovingBlock.

Record t := mk { block : Block; vel : Z }.

Definition init (type_object : TerrainType) (x y : Z) : t :=
  mk (Block_init type_object x y) 1.

Definition on_block_rect (f : Rect -> Rect) (self : t) : t :=
  mk (mkBlock (f (rect (block self))) (is_spike (block self))) (vel self).

(** [update] mutates the block and the player; both are returned. *)
Definition update (self : t) (player : Entity) (is_pressed : Key -> bool)
  : t * Entity :=
  if (top (rect (block self)) =? bottom (rect player))
     && lateral_edge_inside (rect (block self)) (rect player)
     && (negb (state_is (state player) HANGING)
         && negb (state_is (state player) CLIMBING))
  then
    let '(self, player) :=
      if direction_is (direction player) LEFT
      then let self := on_block_rect (fun r => set_x (x r - vel self) r) self in
           (self, on_rect (set_x (x (rect (block self)))) player)
      else (self, player) in
    let '(self, player) :=
      if direction_is (direction player) RIGHT
      then let self := on_block_rect (fun r => set_x (x r + vel self) r) self in
           (self, on_rect (set_x (x (rect (block self)))) player)
      else (self, player) in
    if is_pressed K_UP
    then let self := on_block_rect (fun r => set_y (y r - vel self) r) self in
         (self, on_rect (set_bottom (top (rect (block self)))) player)
    else if is_pressed K_DOWN
    then let self := on_block_rect (fun r => set_y (y r + vel self) r) self in
         (self, on_rect (set_bottom (top (rect (block self)))) player)
    else (self, player)
  else (self, player).

End MovingBlock.

(** ** EnemyMovementComponent ([physics.py]) *)

(** An enemy: the entity and the two patrol bounds the component reads
    ([enemy.left_bound], [enemy.right_bound]). *)
Record Enemy := mkEnemy {
  enemy_entity : Entity;
  left_bound : Z;
  right_bound : Z
}.

Definition on_entity (f : Entity -> Entity) (enemy : Enemy) : Enemy :=
  mkEnemy (f (enemy_entity enemy)) (left_bound enemy) (right_bound enemy).

Module EnemyMovementComponent.

Definition DEFAULT_WALKING_SPEED : Z := 90.

Definition update (walking_speed : Z) (enemy : Enemy) : Enemy :=
  let enemy := on_entity (set_state WALKING) enemy in
  match get_direction (enemy_entity enemy) with
  | LEFT =>
      if x (rect (enemy_entity enemy)) >? left_bound enemy
      then on_entity (set_x_velocity (- walking_speed)) enemy
      else on_entity (reverse_direction >> set_x_velocity walking_speed) enemy
  | RIGHT =>
      if x (rect (enemy_entity enemy)) <? right_bound enemy
      then on_entity (set_x_velocity walking_speed) enemy
      else on_entity (reverse_direction >> set_x_velocity (- walking_speed)) enemy
  end.

End EnemyMovementComponent.

(** ** More blocks ([block.py]) *)

(** [pg.Rect] given floats: every component is truncated to an integer. *)
Definition Rect_of_floats (rx ry rw rh : Q) : Rect :=
  mkRect (py_int rx) (py_int ry) (py_int rw) (py_int rh).

(** [r.centerx = v]: the rectangle is moved, for sizes that are not
    negative. *)
Definition set_centerx (v : Z) (r : Rect) : Rect := set_x (v - width r / 2) r.

Module FallingBlock.

Record t := mk { block : Block; vel : Z; fallen : bool }.

Definition init (type_object : TerrainType) (x y : Z) : t :=
  mk (Block_init type_object x y) 1 false.

#[global] Instance sprite : Sprite t := fun self => rect (block self).

Definition on_block_rect (f : Rect -> Rect) (self : t) : t :=
  mk (mkBlock (f (rect self)) (is_spike (block self))) (vel self) (fallen self).

Definition set_fallen (v : bool) (self : t) : t :=
  mk (block self) (vel self) v.

(** One iteration of the loop over the colliding terrain: the block lands
    on a sprite whose top edge its bottom has passed.  [terrain_group]
    lists the other sprites: the block itself, when the group holds it, has
    no edge strictly inside itself and passes every test of these loops
    unchanged; the same holds for the pushable block below. *)
Definition settle (self : t) (colliding_sprite : Block) : t :=
  if (top (rect colliding_sprite) <? bottom (rect self))
     && (bottom (rect self) <? bottom (rect colliding_sprite))
  then (on_block_rect (set_bottom (top (rect colliding_sprite))) >> set_fallen true) self
  else self.

Definition update (self : t) (player : Entity) (terrain_group : list Block)
  : t * Entity :=
  let '(self, player) :=
    if (top (rect self) =? bottom (rect player))
       && negb (fallen self)
       && lateral_edge_inside (rect self) (rect player)
    then let self := on_block_rect (fun r => set_y (y r + vel self) r) self in
         (self, on_rect (set_bottom (top (rect self))) player)
    else (self, player) in
  (fold_left settle (spritecollide self terrain_group) self, player).

End FallingBlock.

Module LadderBlock.

Record t := mk { block : Block; mid_rect : Rect }.

Definition init (type_object : TerrainType) (x y : Z) : t :=
  let block := Block_init type_object x y in
  mk block
     (Rect_of_floats (inject_Z (centerx (rect block)) - 0.5)
                     (inject_Z (top (rect block)))
                     1
                     (inject_Z (height (rect block)))).

Definition update (self : t) (entity : Entity) (current_keys : Key -> bool) : Entity :=
  if colliderect (mid_rect self) (rect entity)
     && negb (state_is (state entity) JUMPING)
  then
    if current_keys K_UP || current_keys K_DOWN
    then (on_rect (set_centerx (centerx (mid_rect self))) >> set_state HANGING) entity
    else entity
  else entity.

End LadderBlock.

Module PushableBlock.

Record t := mk { block : Block; y_velocity : Z; gravity : Z }.

Definition init (type_object : TerrainType) (x y : Z) : t :=
  mk (Block_init type_object x y) 1 1.

#[global] Instance sprite : Sprite t := fun self => rect (block self).

Definition on_block_rect (f : Rect -> Rect) (self : t) : t :=
  mk (mkBlock (f (rect self)) (is_spike (block self))) (y_velocity self) (gravity self).

Definition set_y_velocity (v : Z) (self : t) : t :=
  mk (block self) v (gravity self).

(** The test that the player is pushing the block. *)
Definition is_pushed (self : t) (player : Entity) : bool :=
  ((left (rect self) =? right (rect player))
   || (right (rect self) =? left (rect player)))
  && state_is (state player) WALKING
  && (bottom (rect player) =? bottom (rect self)).

(** [self.rect.x += (self.rect.centerx - player.rect.centerx) / 20]: the
    division makes a float, and so does the sum.  [rect_coordinate] is the
    conversion pygame applies to a float stored in a coordinate of a Rect;
    the source does not fix it (it differs between releases of pygame). *)
Definition push (rect_coordinate : PrimFloat.float -> Z) (self : t) (player : Entity) : t :=
  on_block_rect
    (fun r => set_x (rect_coordinate
                       (float_of_int (x r)
                        + truediv (centerx r - centerx (rect player)) 20)%float) r)
    self.

Definition x_settle (self : t) (colliding_sprite : Block) : t :=
  let self :=
    when ((left (rect colliding_sprite) <? left (rect self))
          && (left (rect self) <? right (rect colliding_sprite)))
      (on_block_rect (set_left (right (rect colliding_sprite)))) self in
  when ((left (rect colliding_sprite) <? right (rect self))
        && (right (rect self) <? right (rect colliding_sprite)))
    (on_block_rect (set_right (left (rect colliding_sprite)))) self.

(** The second loop; its local [isFloating] is written and never read. *)
Definition y_settle (self : t) (colliding_sprite : Block) : t :=
  let self :=
    when ((top (rect colliding_sprite) <? top (rect self))
          && (top (rect self) <? bottom (rect colliding_sprite)))
      (on_block_rect (set_top (bottom (rect colliding_sprite))) >> set_y_velocity 0)
      self in
  when ((top (rect colliding_sprite) <? bottom (rect self))
        && (bottom (rect self) <? bottom (rect colliding_sprite)))
    (on_block_rect (set_bottom (top (rect colliding_sprite))) >> set_y_velocity 0)
    self.

Definition update (rect_coordinate : PrimFloat.float -> Z)
  (self : t) (player : Entity) (terrain_group : list Block) : t :=
  let self :=
    when (is_pushed self player) (fun self => push rect_coordinate self player) self in
  let self := fold_left x_settle (spritecollide self terrain_group) self in
  let self := set_y_velocity (y_velocity self + gravity self) self in
  let self := on_block_rect (fun r => set_y (y r + y_velocity self) r) self in
  fold_left y_settle (spritecollide self terrain_group) self.

End PushableBlock.

(** ** Legal rectangles *)

(** pygame allows negative sizes to be stored but treats such rectangles as
    illegal for most operations; every rect of the program has the sizes
    its constructor computed, which are not negative. *)
Definition legal (r : Rect) : Prop := 0 <= width r /\ 0 <= height r.

(** The map without its hazardous blocks. *)
Definition without_hazards (map : GameMap) : GameMap :=
  mkMap (map_rect map)
        (List.filter (fun b => negb (is_spike b)) (collideable_terrain_group map)).

(** A vertical pass registered no landing contact. *)
Definition no_landing (passes : list bool) : Prop :=
  Forall (fun isJumping => isJumping = true) passes.

(** The state of the loop of [handle_y_collisions] before any block has
    moved the entity [entity0], and after a landing on a block whose top
    edge is at height [level]. *)
Definition untouched (entity0 : Entity) (st : Entity * bool) : Prop :=
  fst st = entity0 /\ snd st = true.

Definition landed (entity0 : Entity) (level : Z) (st : Entity * bool) : Prop :=
  bottom (rect (fst st)) = level
  /\ height (rect (fst st)) = height (rect entity0)
  /\ x (rect (fst st)) = x (rect entity0)
  /\ y_velocity (fst st) = 0
  /\ snd st = false
  /\ (state entity0 = JUMPING -> state (fst st) = IDLE)
  /\ (state entity0 <> JUMPING -> state (fst st) = state entity0).

(** The state of that loop after the entity has bumped its head on a block
    whose bottom edge is at height [level]. *)
Definition bumped (entity0 : Entity) (level : Z) (st : Entity * bool) : Prop :=
  top (rect (fst st)) = level
  /\ height (rect (fst st)) = height (rect entity0)
  /\ y_velocity (fst st) = 0
  /\ snd st = true
  /\ state (fst st) = state entity0.

(** A vertical pass that ended with [isJumping] true leaves an entity that
    is JUMPING unless it hangs or climbs. *)
Definition airborne_after_pass (st : Entity * list bool) : Prop :=
  last (snd st) = Some true ->
  state (fst st) <> HANGING -> state (fst st) <> CLIMBING ->
  state (fst st) = JUMPING.

(** ** Concrete scenes *)

Module Scene.

Definition no_keys : Key -> bool := fun _ => false.
Definition left_and_right : Key -> bool :=
  fun k => match k with K_LEFT | K_RIGHT => true | _ => false end.

(** The terrain types of the table that the scenes place. *)
Definition terrain (code : string) : TerrainType :=
  match TextureSet.get_texture_from_code code with
  | Ok t => t
  | KeyError _ => TerrainType_default (TextureSet.tileset (mkRect 0 0 0 0))
  end.

(** A player (20 by 30, as [Player.__init__] sizes it) at a position. *)
Definition player_at (px py : Z) : Entity :=
  mkEntity 0 0 RIGHT IDLE (mkRect px py 20 30) [].

(** An enemy of type PinkGuy (32 by 32) walking left. *)
Definition pink_guy_at (px py : Z) : Entity :=
  mkEntity (-90) 0 LEFT WALKING (mkRect px py 32 32) [].

(** The gateway of tile (100, 112): its box is (100, 100, 25, 37). *)
Definition gateway : Block := GatewayBlock.init (terrain "GW") 100 112.

(** Upright spikes of tile (100, 100): the box is (100, 117, 25, 7). *)
Definition spikes : Block := SpikeBlock.init (terrain "SP") 100 100.

(** A floor tile and a half-height floor tile. *)
Definition floor_at (bx by_ : Z) : Block := Block_init (terrain "f1") bx by_.
Definition half_floor_at (bx by_ : Z) : Block := Block_init (terrain "f2") bx by_.

Definition moving_block : MovingBlock.t := MovingBlock.init (terrain "MB") 100 100.

(** A map 1000 pixels wide with the given solid blocks. *)
Definition map_of (blocks : list Block) : GameMap :=
  mkMap (mkRect 0 0 1000 600) blocks.

Definition open_map : GameMap := map_of [].

(** [delta_time = clock.tick(60) / 1000] of [main.py], for a frame of [ms]
    milliseconds. *)
Definition frame_time (ms : Z) : PrimFloat.float := truediv ms 1000.

(** A map narrower than the entity standing in it. *)
Definition narrow_map : GameMap := mkMap (mkRect 0 0 10 600) [].

(** A patrolling enemy between the bounds 100 and 300. *)
Definition patrol_at (px : Z) (d : Direction) : Enemy :=
  mkEnemy (mkEntity 0 0 d IDLE (mkRect px 68 32 32) []) 100 300.

Definition falling_block : FallingBlock.t := FallingBlock.init (terrain "FB") 100 100.
Definition ladder : LadderBlock.t := LadderBlock.init (terrain "LB") 100 100.
Definition pushable : PushableBlock.t := PushableBlock.init (terrain "PB") 100 75.

Definition up_only : Key -> bool :=
  fun k => match k with K_UP => true | _ => false end.
Definition space_only : Key -> bool :=
  fun k => match k with K_SPACE => true | _ => false end.

End Scene.

(** * Properties *)

(** ** Rectangles *)

Lemma set_bottom_bottom (v : Z) (r : Rect) : bottom (set_bottom v r) = v.
Proof. unfold bottom, set_bottom, set_y; simpl; lia. Qed.

Lemma set_right_right (v : Z) (r : Rect) : right (set_right v r) = v.
Proof. unfold right, set_right, set_x; simpl; lia. Qed.

Lemma collidepoint_spec (r : Rect) (px py : Z) :
  collidepoint r px py = true <->
  left r <= px < right r /\ top r <= py < bottom r.
Proof. unfold collidepoint, left, right, top, bottom. lia. Qed.

(** On legal rectangles [colliderect] is the usual strict overlap test of
    two boxes, with empty boxes colliding with nothing. *)
Lemma colliderect_legal (a b : Rect) :
  legal a -> legal b ->
  (colliderect a b = true <->
   width a <> 0 /\ height a <> 0 /\ width b <> 0 /\ height b <> 0 /\
   left a < right b /\ top a < bottom b /\ right a > left b /\ bottom a > top b).
Proof.
  unfold legal, colliderect, left, right, top, bottom. intros [Hwa Hha] [Hwb Hhb].
  destruct (Z.eqb_spec (width a) 0), (Z.eqb_spec (height a) 0),
    (Z.eqb_spec (width b) 0), (Z.eqb_spec (height b) 0); simpl; try lia.
Qed.

Lemma snoc_neq {A : Type} (l : list A) (a : A) : l <> l ++ [a].
Proof.
  intros H. apply (f_equal (@length A)) in H.
  rewrite length_app in H. simpl in H. lia.
Qed.

(** ** The control component *)

(** C8. In a control-component tick with both Left and Right held, an IDLE
    or WALKING entity ends facing RIGHT with horizontal velocity +180: the
    Left branch runs first and the Right branch overwrites it. *)
Theorem right_wins_when_left_and_right_held (is_pressed : Key -> bool) (entity : Entity) :
  is_pressed K_LEFT = true ->
  is_pressed K_RIGHT = true ->
  state entity = IDLE \/ state entity = WALKING ->
  let entity' := UserControlComponent.update is_pressed entity in
  direction entity' = RIGHT /\ x_velocity entity' = 180.
Proof.
  intros HL HR Hst. destruct entity as [vx vy d s r ms]. simpl in Hst.
  unfold UserControlComponent.update, get_state. simpl.
  destruct Hst as [-> | ->];
    unfold UserControlComponent.handle_idle_entity,
      UserControlComponent.handle_walking_entity, when;
    rewrite HL, HR; simpl; destruct (is_pressed K_SPACE); simpl; split; reflexivity.
Qed.

Lemma right_wins_when_left_and_right_held_witness :
  direction (UserControlComponent.update Scene.left_and_right (Scene.player_at 10 10)) = RIGHT
  /\ x_velocity (UserControlComponent.update Scene.left_and_right (Scene.player_at 10 10)) = 180.
Proof.
  apply (right_wins_when_left_and_right_held Scene.left_and_right (Scene.player_at 10 10)).
  - reflexivity.
  - reflexivity.
  - left. reflexivity.
Defined.

(** The Left branch does run before the Right one: with both keys held the
    idle handler equals the Right-only handler started from the entity the
    Left-only handler produced (when Space is not held). *)
Lemma idle_left_branch_then_right_branch (entity : Entity) :
  let only k := fun k' : Key => match k, k' with
                                | K_LEFT, K_LEFT | K_RIGHT, K_RIGHT => true
                                | _, _ => false
                                end in
  UserControlComponent.handle_idle_entity Scene.left_and_right entity
  = UserControlComponent.handle_idle_entity (only K_RIGHT)
      (UserControlComponent.handle_idle_entity (only K_LEFT) entity).
Proof. destruct entity. reflexivity. Qed.

(** ** The gateway *)

(** C1 (the claim fails here). A player whose center (100, 115) lies inside
    the gateway's box (100, 100, 25, 37) posts nothing: the gateway's own
    center (112, 118) is outside the player's rect (90, 100, 20, 30). *)
Lemma gateway_silent_with_player_center_inside :
  collidepoint (rect Scene.gateway)
    (centerx (rect (Scene.player_at 90 100)))
    (centery (rect (Scene.player_at 90 100))) = true
  /\ GatewayBlock.update Scene.gateway (Scene.player_at 90 100) [] = [].
Proof. split; vm_compute; reflexivity. Qed.

(** C1 (amended). [GatewayBlock.update] posts the level-switch event
    exactly when the player's rect contains the center point of the
    gateway's box; otherwise the queue is left as it was. *)
Theorem gateway_posts_iff_player_rect_contains_its_center
  (self : Block) (player : Entity) (queue : list GameEvent) :
  let queue' := GatewayBlock.update self player queue in
  (queue' = queue ++ [SWITCH_LEVEL] <->
     left (rect player) <= centerx (rect self) < right (rect player)
     /\ top (rect player) <= centery (rect self) < bottom (rect player))
  /\ (queue' = queue \/ queue' = queue ++ [SWITCH_LEVEL]).
Proof.
  cbv zeta. unfold GatewayBlock.update. rewrite <- collidepoint_spec.
  destruct (collidepoint _ _ _).
  - split; [tauto | right; reflexivity].
  - split; [| left; reflexivity].
    split; [intros H; exfalso; exact (snoc_neq _ _ H) | discriminate].
Qed.

(** With the sizes of the game (gateway 25 by 37, player 20 by 30) a posted
    event does imply that the player's center is inside the gateway's box;
    the converse is what fails. *)
Lemma gateway_post_implies_player_center_inside
  (self : Block) (player : Entity) (queue : list GameEvent) :
  width (rect self) = 25 -> height (rect self) = 37 ->
  width (rect player) = 20 -> height (rect player) = 30 ->
  GatewayBlock.update self player queue = queue ++ [SWITCH_LEVEL] ->
  collidepoint (rect self) (centerx (rect player)) (centery (rect player)) = true.
Proof.
  intros Hw Hh Hpw Hph H. unfold GatewayBlock.update in H.
  destruct (collidepoint (rect player) _ _) eqn:Hin;
    [| exfalso; exact (snoc_neq _ _ H)].
  apply collidepoint_spec in Hin. rename Hin into H'. clear H. rename H' into H.
  apply collidepoint_spec.
  unfold left, right, top, bottom, centerx, centery in *.
  rewrite Hw, Hh in H. rewrite Hpw, Hph.
  change (25 / 2) with 12 in H. change (37 / 2) with 18 in H.
  change (20 / 2) with 10. change (30 / 2) with 15. lia.
Qed.

(** ** Map boundaries *)

(** What the resolution does, edge by edge: the right test is the [elif]
    of the left one. *)
Lemma boundary_resolution_cases (entity : Entity) (map : GameMap) :
  let entity' := PhysicsComponent.handle_map_boundary_collisions entity map in
  (left (rect entity) < 0 -> left (rect entity') = 0)
  /\ (0 <= left (rect entity) -> right (rect entity) > width (map_rect map) ->
      right (rect entity') = width (map_rect map))
  /\ (top (rect entity) < 0 -> top (rect entity') = 0).
Proof.
  cbv zeta. unfold PhysicsComponent.handle_map_boundary_collisions, when.
  destruct entity as [vx vy d s [rx ry rw rh] ms].
  unfold rect, Entity_sprite, on_rect, set_rect, set_top, set_left, set_right,
    set_x, set_y, left, right, top. simpl.
  destruct (Z.ltb_spec ry 0); simpl;
    destruct (Z.ltb_spec rx 0); simpl; try (repeat split; intros; lia);
    destruct (Z.gtb_spec (rx + rw) (width (map_rect map))); simpl;
    repeat split; intros; lia.
Qed.

(** C6. For an entity that is not wider than the map (the player is 20
    pixels wide, an enemy 32, and a map is a grid of 25-pixel tiles),
    boundary resolution establishes: a left edge that was below 0 is
    exactly 0; a right edge that was beyond the map width is exactly the
    map width; a top that was below 0 is exactly 0. *)
Theorem boundary_resolution_clamps (entity : Entity) (map : GameMap) :
  width (rect entity) <= width (map_rect map) ->
  let entity' := PhysicsComponent.handle_map_boundary_collisions entity map in
  (left (rect entity) < 0 -> left (rect entity') = 0)
  /\ (right (rect entity) > width (map_rect map) ->
      right (rect entity') = width (map_rect map))
  /\ (top (rect entity) < 0 -> top (rect entity') = 0).
Proof.
  intros Hw. cbv zeta.
  destruct (boundary_resolution_cases entity map) as (Hl & Hr & Ht). cbv zeta in Hl, Hr, Ht.
  split; [exact Hl | split; [| exact Ht]].
  intros Hright. apply Hr; [| exact Hright].
  unfold left, right in *. lia.
Qed.

Lemma boundary_resolution_clamps_witness :
  left (rect (PhysicsComponent.handle_map_boundary_collisions
                (Scene.player_at (-5) (-3)) Scene.open_map)) = 0
  /\ right (rect (PhysicsComponent.handle_map_boundary_collisions
                    (Scene.player_at 990 10) Scene.open_map)) = 1000
  /\ top (rect (PhysicsComponent.handle_map_boundary_collisions
                  (Scene.player_at (-5) (-3)) Scene.open_map)) = 0.
Proof.
  assert (Hw1 : width (rect (Scene.player_at (-5) (-3))) <= width (map_rect Scene.open_map))
    by (vm_compute; intros H; discriminate H).
  assert (Hw2 : width (rect (Scene.player_at 990 10)) <= width (map_rect Scene.open_map))
    by (vm_compute; intros H; discriminate H).
  destruct (boundary_resolution_clamps (Scene.player_at (-5) (-3)) Scene.open_map Hw1)
    as (Hl & _ & Ht).
  destruct (boundary_resolution_clamps (Scene.player_at 990 10) Scene.open_map Hw2)
    as (_ & Hr & _).
  split; [| split].
  - apply Hl. vm_compute. reflexivity.
  - apply Hr. vm_compute. reflexivity.
  - apply Ht. vm_compute. reflexivity.
Defined.

(** The width condition is needed.  In a map 10 pixels wide an entity at
    x = -5 of width 20 has its right edge (15) beyond the map width; after
    the resolution its left edge is 0 and its right edge is 20, not 10. *)
Example boundary_right_edge_not_clamped_when_too_wide :
  right (rect (Scene.player_at (-5) 10)) > width (map_rect Scene.narrow_map)
  /\ width (map_rect Scene.narrow_map) = 10
  /\ right (rect (PhysicsComponent.handle_map_boundary_collisions
                    (Scene.player_at (-5) 10) Scene.narrow_map)) = 20.
Proof. repeat split. Qed.

(** ** The texture table *)

Lemma getitem_None {A : Type} (d : gmap string A) (key : string) :
  d !! key = None -> getitem d key = KeyError key.
Proof. unfold getitem. intros ->. reflexivity. Qed.

Lemma getitem_Some {A : Type} (d : gmap string A) (key : string) (a : A) :
  d !! key = Some a -> getitem d key = Ok a.
Proof. unfold getitem. intros ->. reflexivity. Qed.

(** Every terrain name the code table mentions is a key of [textures]. *)
Lemma code_table_names_have_textures (code name : string) :
  TextureSet.code_to_texture_dictionary !! code = Some name ->
  is_Some (TextureSet.textures !! name).
Proof.
  unfold TextureSet.code_to_texture_dictionary. intros H.
  apply elem_of_list_to_map_2 in H.
  repeat (apply elem_of_cons in H as [H | H];
          [injection H as -> ->; vm_compute; eexists; reflexivity |]).
  apply elem_of_nil in H. contradiction.
Qed.

(** C9. The texture lookup of a code that is not in the code table raises
    KeyError for that code (no default, no skip); for a code in the table it
    returns the TerrainType stored in [textures] under the code's name. *)
Theorem get_texture_from_code_raises_or_finds (code : string) :
  (TextureSet.code_to_texture_dictionary !! code = None ->
   TextureSet.get_texture_from_code code = KeyError code)
  /\ (forall name : string,
        TextureSet.code_to_texture_dictionary !! code = Some name ->
        exists t : TerrainType,
          TextureSet.textures !! name = Some t
          /\ TextureSet.get_texture_from_code code = Ok t).
Proof.
  unfold TextureSet.get_texture_from_code. split.
  - intros H. rewrite (getitem_None _ _ H). reflexivity.
  - intros name H. destruct (code_table_names_have_textures code name H) as [t Ht].
    exists t. split; [exact Ht |].
    rewrite (getitem_Some _ _ _ H). apply getitem_Some. exact Ht.
Qed.

Lemma get_texture_from_code_raises_or_finds_witness :
  TextureSet.get_texture_from_code "zz" = KeyError "zz"
  /\ exists t : TerrainType,
       TextureSet.textures !! "SPIKES_UPRIGHT" = Some t
       /\ TextureSet.get_texture_from_code "SP" = Ok t.
Proof.
  split.
  - apply (proj1 (get_texture_from_code_raises_or_finds "zz")).
    now vm_compute.
  - apply (proj2 (get_texture_from_code_raises_or_finds "SP") "SPIKES_UPRIGHT").
    now vm_compute.
Defined.

(** The table has 33 codes, each of two characters. *)
Lemma code_table_size :
  size TextureSet.code_to_texture_dictionary = 33%nat
  /\ map_Forall (fun code _ => String.length code = 2%nat)
       TextureSet.code_to_texture_dictionary.
Proof.
  split; [now vm_compute |].
  intros code name H. unfold TextureSet.code_to_texture_dictionary in H.
  apply elem_of_list_to_map_2 in H.
  repeat (apply elem_of_cons in H as [H | H]; [injection H as -> ->; reflexivity |]).
  apply elem_of_nil in H. contradiction.
Qed.

(** ** Spikes *)

(** The first statement of [SpikeBlock.update]: the snap. *)
Lemma spike_snap_spec (self : Block) (player : Entity) :
  legal (rect self) ->
  legal (rect player) ->
  let snapped :=
    when (colliderect (rect self) (rect player))
      (on_rect (set_bottom (top (rect self)))) player in
  colliderect (rect self) (rect snapped) = false
  /\ (colliderect (rect self) (rect player) = true ->
      bottom (rect snapped) = top (rect self)
      /\ x (rect snapped) = x (rect player))
  /\ messages snapped = messages player.
Proof.
  intros [Hsw Hsh] [Hpw Hph]. cbv zeta. unfold when.
  destruct (colliderect (rect self) (rect player)) eqn:Hc.
  - destruct self as [[sx sy sw sh] spike].
    destruct player as [vx vy d s [rx ry rw rh] ms].
    unfold rect, Block_sprite, Entity_sprite, on_rect, set_rect, set_bottom,
      set_y, top, bottom in *. simpl in *.
    repeat split; try lia.
    unfold colliderect. simpl.
    destruct (sw =? 0), (sh =? 0), (rw =? 0), (rh =? 0); simpl; try reflexivity; lia.
  - repeat split; try discriminate. exact Hc.
Qed.

(** C10. After [SpikeBlock.update] the player's rect does not overlap the
    spike's rect: any overlap, from whichever side, is resolved by putting
    the player's bottom edge on the spike's top edge (the x position is
    kept); and the LAND_ON_SPIKE message is sent exactly when, after that, a
    lateral edge of the player is strictly inside the spike's horizontal
    extent and the player's bottom equals the spike's top. *)
Theorem spike_update_resolves_overlap (self : Block) (player : Entity) :
  legal (rect self) ->
  legal (rect player) ->
  let player' := SpikeBlock.update self player in
  colliderect (rect self) (rect player') = false
  /\ (colliderect (rect self) (rect player) = true ->
      bottom (rect player') = top (rect self)
      /\ x (rect player') = x (rect player))
  /\ (messages player' = messages player ++ [LAND_ON_SPIKE] <->
      lateral_edge_inside (rect self) (rect player') = true
      /\ bottom (rect player') = top (rect self))
  /\ (messages player' = messages player
      \/ messages player' = messages player ++ [LAND_ON_SPIKE]).
Proof.
  intros Hs Hp. cbv zeta. unfold SpikeBlock.update.
  destruct (spike_snap_spec self player Hs Hp) as (Hfree & Hsnap & Hmsg).
  cbv zeta in Hfree, Hsnap, Hmsg.
  set (snapped := when (colliderect (rect self) (rect player)) _ player) in *.
  destruct (lateral_edge_inside (rect self) (rect snapped)
            && (top (rect self) =? bottom (rect snapped))) eqn:Hm;
    unfold when.
  - change (rect (message LAND_ON_SPIKE snapped)) with (rect snapped).
    apply andb_true_iff in Hm as [Hl He]. apply Z.eqb_eq in He.
    unfold message at 1 2 3. simpl. rewrite Hmsg.
    split; [exact Hfree | split; [exact Hsnap | split]].
    + split; [intros _; split; [exact Hl | symmetry; exact He] | reflexivity].
    + right. reflexivity.
  - rewrite Hmsg.
    split; [exact Hfree | split; [exact Hsnap | split]].
    + split.
      * intros H. exfalso. exact (snoc_neq _ _ H).
      * intros [Hl He]. rewrite Hl in Hm. simpl in Hm. lia.
    + left. reflexivity.
Qed.

Lemma spike_update_resolves_overlap_witness :
  colliderect (rect Scene.spikes)
    (rect (SpikeBlock.update Scene.spikes (Scene.player_at 115 110))) = false
  /\ bottom (rect (SpikeBlock.update Scene.spikes (Scene.player_at 115 110)))
     = top (rect Scene.spikes)
  /\ messages (SpikeBlock.update Scene.spikes (Scene.player_at 115 110))
     = messages (Scene.player_at 115 110) ++ [LAND_ON_SPIKE].
Proof.
  assert (Hs : legal (rect Scene.spikes)) by now vm_compute.
  assert (Hp : legal (rect (Scene.player_at 115 110))) by now vm_compute.
  destruct (spike_update_resolves_overlap _ _ Hs Hp) as (Hfree & Hsnap & Hmsg & _).
  split; [exact Hfree | split].
  - apply Hsnap. vm_compute. reflexivity.
  - apply (proj2 Hmsg). vm_compute. split; reflexivity.
Defined.

(** ** The moving block *)

(** C7 (the claim fails here). A player walking right at 180 units per
    second stands on the moving block (feet on its top, left edge inside).
    One update moves the block by +1 pixel and puts the player's left edge
    on the block's: the player is displaced by -9 pixels, and the block's
    step owes nothing to the player's velocity. *)
Lemma moving_block_does_not_mirror_player :
  let player := set_x_velocity 180 (set_state WALKING (Scene.player_at 110 70)) in
  let after := MovingBlock.update Scene.moving_block player Scene.no_keys in
  top (rect (MovingBlock.block Scene.moving_block)) = bottom (rect player)
  /\ x (rect (MovingBlock.block (fst after)))
     - x (rect (MovingBlock.block Scene.moving_block)) = 1
  /\ x (rect (snd after)) - x (rect player) = -9
  /\ x_velocity player = 180.
Proof. cbv zeta. vm_compute. repeat split. Qed.

(** C7 (amended). While the player's feet exactly touch the moving block's
    top with a lateral edge strictly inside it, and the player is neither
    HANGING nor CLIMBING, the block steps by its own fixed speed [vel] (one
    pixel) toward the side the player faces, whatever the player's
    velocity, and the player's left edge is put on the block's left edge;
    the block also steps up by [vel] when Up is held, else down by [vel]
    when Down is held, and in both cases the player's bottom is put on the
    block's top.  Velocity, direction and state of the player are kept. *)
Theorem moving_block_steps_and_carries_player
  (self : MovingBlock.t) (player : Entity) (is_pressed : Key -> bool) :
  top (rect (MovingBlock.block self)) = bottom (rect player) ->
  lateral_edge_inside (rect (MovingBlock.block self)) (rect player) = true ->
  state player <> HANGING ->
  state player <> CLIMBING ->
  let after := MovingBlock.update self player is_pressed in
  let self' := fst after in
  let player' := snd after in
  x (rect (MovingBlock.block self'))
    = x (rect (MovingBlock.block self))
      + match direction player with
        | LEFT => - MovingBlock.vel self
        | RIGHT => MovingBlock.vel self
        end
  /\ x (rect player') = x (rect (MovingBlock.block self'))
  /\ y (rect (MovingBlock.block self'))
     = y (rect (MovingBlock.block self))
       + (if is_pressed K_UP then - MovingBlock.vel self
          else if is_pressed K_DOWN then MovingBlock.vel self
          else 0)
  /\ (is_pressed K_UP || is_pressed K_DOWN = true ->
      bottom (rect player') = top (rect (MovingBlock.block self')))
  /\ (is_pressed K_UP || is_pressed K_DOWN = false ->
      y (rect player') = y (rect player))
  /\ x_velocity player' = x_velocity player
  /\ direction player' = direction player
  /\ state player' = state player
  /\ MovingBlock.vel self' = MovingBlock.vel self.
Proof.
  intros Htouch Hedge Hh Hc. cbv zeta. unfold MovingBlock.update.
  apply Z.eqb_eq in Htouch. rewrite Htouch, Hedge.
  assert (Hst : negb (state_is (state player) HANGING)
                && negb (state_is (state player) CLIMBING) = true).
  { unfold state_is. rewrite !bool_decide_eq_false_2 by assumption. reflexivity. }
  rewrite Hst. simpl andb. cbv iota.
  destruct self as [[[bx by_ bw bh] spike] v].
  destruct player as [vx vy d s [rx ry rw rh] ms].
  unfold MovingBlock.on_block_rect, on_rect, set_rect, set_bottom, set_x, set_y,
    rect, Block_sprite, Entity_sprite, top, bottom, direction_is.
  destruct d, (is_pressed K_UP), (is_pressed K_DOWN); simpl;
    repeat split; intros; try discriminate; lia.
Qed.

Lemma moving_block_steps_and_carries_player_witness :
  let player := set_x_velocity 180 (set_state WALKING (Scene.player_at 110 70)) in
  let after := MovingBlock.update Scene.moving_block player Scene.no_keys in
  x (rect (MovingBlock.block (fst after)))
    = x (rect (MovingBlock.block Scene.moving_block)) + 1
  /\ x (rect (snd after)) = x (rect (MovingBlock.block (fst after))).
Proof.
  cbv zeta.
  destruct (moving_block_steps_and_carries_player Scene.moving_block
              (set_x_velocity 180 (set_state WALKING (Scene.player_at 110 70)))
              Scene.no_keys) as (Hx & Hp & _).
  - now vm_compute.
  - now vm_compute.
  - discriminate.
  - discriminate.
  - split; [exact Hx | exact Hp].
Defined.

(** ** Horizontal collision resolution *)

(** C5 (the enemy's override misses the hazard test).  An enemy walking
    left and overlapping upright spikes (a block with [is_spike] true), its
    left edge (110) inside the spikes' extent (100 to 125), is moved by
    [EnemyPhysicsComponent.handle_x_collisions] to the spikes' right edge:
    its x goes from 110 to 125, it is turned to the right and its velocity
    is reversed.  [PhysicsComponent.handle_x_collisions], which tests
    [is_spike], leaves the same entity where it is. *)
Lemma enemy_is_snapped_by_spikes :
  let enemy := Scene.pink_guy_at 110 100 in
  let map := Scene.map_of [Scene.spikes] in
  is_spike Scene.spikes = true
  /\ rect Scene.spikes = mkRect 100 117 25 7
  /\ x (rect enemy) = 110
  /\ x_velocity enemy = -90
  /\ x (rect (EnemyPhysicsComponent.handle_x_collisions enemy map)) = 125
  /\ direction (EnemyPhysicsComponent.handle_x_collisions enemy map) = RIGHT
  /\ x_velocity (EnemyPhysicsComponent.handle_x_collisions enemy map) = 90
  /\ PhysicsComponent.handle_x_collisions enemy map = enemy.
Proof. cbv zeta. vm_compute. repeat split. Qed.

Lemma x_collision_hazard (entity : Entity) (b : Block) :
  is_spike b = true -> PhysicsComponent.x_collision entity b = entity.
Proof. unfold PhysicsComponent.x_collision. intros ->. reflexivity. Qed.

Lemma fold_x_collision_skips_hazards (keep : Block -> bool) (group : list Block) (entity : Entity) :
  fold_left PhysicsComponent.x_collision (List.filter keep group) entity
  = fold_left PhysicsComponent.x_collision
      (List.filter keep (List.filter (fun b => negb (is_spike b)) group)) entity.
Proof.
  revert entity. induction group as [| b group IH]; intros entity; simpl.
  - reflexivity.
  - destruct (is_spike b) eqn:Hb; simpl.
    + destruct (keep b); simpl; [| apply IH].
      rewrite (x_collision_hazard entity b Hb). apply IH.
    + destruct (keep b); simpl; apply IH.
Qed.

(** One block either leaves the entity as it is, or is not hazardous and
    leaves the entity snapped against one of its sides. *)
Lemma x_collision_snaps (entity : Entity) (b : Block) :
  let entity' := PhysicsComponent.x_collision entity b in
  entity' = entity
  \/ is_spike b = false
     /\ (left (rect entity') = right (rect b) \/ right (rect entity') = left (rect b)).
Proof.
  cbv zeta. unfold PhysicsComponent.x_collision, when.
  destruct (is_spike b); simpl; [left; reflexivity |].
  destruct (is_colliding_from_right entity b).
  - right. split; [reflexivity |].
    match goal with |- context [if ?c then _ else _] => destruct c end.
    + right. apply set_right_right.
    + left. reflexivity.
  - destruct (is_colliding_from_left entity b); [| left; reflexivity].
    right. split; [reflexivity |]. right. apply set_right_right.
Qed.

(** The loop of [handle_x_collisions] either leaves the entity as it found
    it or leaves it snapped against a block of the list that is not
    hazardous. *)
Lemma fold_x_collision_snaps (blocks : list Block) (entity : Entity) :
  let entity' := fold_left PhysicsComponent.x_collision blocks entity in
  entity' = entity
  \/ exists b, In b blocks /\ is_spike b = false
               /\ (left (rect entity') = right (rect b)
                   \/ right (rect entity') = left (rect b)).
Proof.
  cbv zeta. revert entity.
  induction blocks as [| b blocks IH]; intros entity; simpl; [left; reflexivity |].
  destruct (IH (PhysicsComponent.x_collision entity b)) as [Heq | (c & Hin & Hc & Hsnap)].
  - rewrite Heq.
    destruct (x_collision_snaps entity b) as [Hsame | [Hb Hsnap]].
    + left. exact Hsame.
    + right. exists b. split; [left; reflexivity | split; assumption].
  - right. exists c. split; [right; exact Hin | split; assumption].
Qed.

(** X27. For the player's component, [PhysicsComponent], the outcome of
    horizontal collision resolution is the one the map without its
    hazardous blocks gives, however the boxes overlap; and when the
    resolution moves the entity horizontally, the entity ends with its left
    or right edge on the opposite edge of a block of the collideable group
    that is not hazardous and that it overlapped. *)
Theorem hazards_never_block_player_horizontally (entity : Entity) (map : GameMap) :
  let entity' := PhysicsComponent.handle_x_collisions entity map in
  entity' = PhysicsComponent.handle_x_collisions entity (without_hazards map)
  /\ (x (rect entity') <> x (rect entity) ->
      exists b, In b (collideable_terrain_group map)
                /\ is_spike b = false
                /\ colliderect (rect entity) (rect b) = true
                /\ (left (rect entity') = right (rect b)
                    \/ right (rect entity') = left (rect b))).
Proof.
  cbv zeta. unfold PhysicsComponent.handle_x_collisions, spritecollide, without_hazards.
  simpl. split.
  - apply fold_x_collision_skips_hazards.
  - intros Hmoved.
    destruct (fold_x_collision_snaps
                (List.filter (fun g => colliderect (rect entity) (rect g))
                   (collideable_terrain_group map)) entity)
      as [Heq | (b & Hin & Hb & Hsnap)].
    + rewrite Heq in Hmoved. contradiction.
    + apply filter_In in Hin as [Hin Hcol]. exists b. auto.
Qed.

Lemma hazards_never_block_player_horizontally_witness :
  x (rect (PhysicsComponent.handle_x_collisions (Scene.player_at 110 100)
             (Scene.map_of [Scene.spikes; Scene.floor_at 100 100])))
  = x (rect (PhysicsComponent.handle_x_collisions (Scene.player_at 110 100)
               (without_hazards (Scene.map_of [Scene.spikes; Scene.floor_at 100 100]))))
  /\ exists b, In b [Scene.spikes; Scene.floor_at 100 100]
               /\ is_spike b = false
               /\ colliderect (rect (Scene.player_at 110 100)) (rect b) = true.
Proof.
  destruct (hazards_never_block_player_horizontally (Scene.player_at 110 100)
              (Scene.map_of [Scene.spikes; Scene.floor_at 100 100])) as [Hsame Hsnap].
  split.
  - rewrite <- Hsame. reflexivity.
  - destruct Hsnap as (b & Hin & Hb & Hcol & _).
    + vm_compute. intros Heq. discriminate Heq.
    + exists b. split; [exact Hin | split; [exact Hb | exact Hcol]].
Defined.

(** ** Vertical collision resolution: landing *)

Lemma y_collision_no_contact (entity : Entity) (isJumping : bool) (c : Block) :
  is_colliding_from_below entity c = false ->
  is_colliding_from_above entity c = false ->
  PhysicsComponent.y_collision (entity, isJumping) c = (entity, isJumping).
Proof.
  intros Hb Ha. unfold PhysicsComponent.y_collision, when. rewrite Hb, Ha. reflexivity.
Qed.

Lemma y_collision_landing (entity : Entity) (isJumping : bool) (c : Block) :
  is_colliding_from_below entity c = false ->
  is_colliding_from_above entity c = true ->
  landed entity (top (rect c)) (PhysicsComponent.y_collision (entity, isJumping) c).
Proof.
  intros Hb Ha. unfold PhysicsComponent.y_collision, when. rewrite Hb, Ha.
  destruct entity as [vx vy d s [rx ry rw rh] ms].
  unfold landed, state_is, get_state. simpl.
  destruct s; simpl; unfold bottom; simpl; repeat split; try lia; congruence.
Qed.

(** Once the entity stands on the level of a block's top, that block
    registers neither contact. *)
Lemma y_collision_on_level (entity : Entity) (isJumping : bool) (c : Block) :
  0 <= height (rect entity) ->
  bottom (rect entity) = top (rect c) ->
  PhysicsComponent.y_collision (entity, isJumping) c = (entity, isJumping).
Proof.
  intros Hh Hlevel. apply y_collision_no_contact.
  - unfold is_colliding_from_below, bottom, top in *. lia.
  - unfold is_colliding_from_above, bottom, top in *. lia.
Qed.

Lemma fold_y_collision_landed (entity0 : Entity) (level : Z) (blocks : list Block)
  (st : Entity * bool) :
  0 <= height (rect entity0) ->
  (forall c, In c blocks -> top (rect c) = level) ->
  landed entity0 level st ->
  landed entity0 level (fold_left PhysicsComponent.y_collision blocks st).
Proof.
  intros Hh. revert st. induction blocks as [| c blocks IH]; intros st Hlevel Hst; cbn [fold_left].
  - exact Hst.
  - apply IH; [intros c' Hc'; apply Hlevel; right; exact Hc' |].
    destruct st as [e f]. rewrite y_collision_on_level; [exact Hst | |].
    + destruct Hst as (_ & Hheight & _). simpl in Hheight. lia.
    + destruct Hst as (Hbottom & _). simpl in Hbottom.
      rewrite Hbottom. symmetry. apply Hlevel. left. reflexivity.
Qed.

Lemma fold_y_collision_level (entity0 : Entity) (level : Z) (blocks : list Block) :
  0 <= height (rect entity0) ->
  (forall c, In c blocks ->
     top (rect c) = level /\ is_colliding_from_below entity0 c = false) ->
  let st := fold_left PhysicsComponent.y_collision blocks (entity0, true) in
  (untouched entity0 st
   /\ forall c, In c blocks -> is_colliding_from_above entity0 c = false)
  \/ landed entity0 level st.
Proof.
  intros Hh. cbv zeta.
  induction blocks as [| c blocks IH]; intros Hblocks; cbn [fold_left].
  - left. split; [split; reflexivity | intros c []].
  - destruct (Hblocks c (or_introl eq_refl)) as [Hlevel Hbelow].
    assert (Hrest : forall c', In c' blocks ->
              top (rect c') = level /\ is_colliding_from_below entity0 c' = false)
      by (intros c' Hc'; apply Hblocks; right; exact Hc').
    destruct (is_colliding_from_above entity0 c) eqn:Habove.
    + right. apply fold_y_collision_landed; [exact Hh | intros c' Hc'; apply Hrest, Hc' |].
      rewrite <- Hlevel. apply y_collision_landing; assumption.
    + rewrite y_collision_no_contact by assumption.
      destruct (IH Hrest) as [[Hun Hnone] | Hland]; [left | right; exact Hland].
      split; [exact Hun |]. intros c' [<- | Hc']; [exact Habove | apply Hnone, Hc'].
Qed.

(** C3 (the claim fails here). A JUMPING player falls at 720 units per
    second from rest height onto a half-height floor tile (box 100, 112,
    25, 13).  After the vertical move of the one sub-step of a 1/60 s tick
    the tile's top edge (112) is strictly between the player's top (95) and
    bottom (125), and the boxes overlap; yet the tick ends with vertical
    velocity 780, the player's bottom still at 125, and state JUMPING: the
    landing test needs the player's bottom strictly above the tile's
    bottom edge. *)
Lemma fall_through_thin_block :
  let player := set_y_velocity 720 (set_state JUMPING (Scene.player_at 100 82)) in
  let tile := Scene.half_floor_at 100 100 in
  let moved := PhysicsComponent.move_y PhysicsComponent.DISCRETE_TIMESTEP
                 (PhysicsComponent.apply_gravity PhysicsComponent.DISCRETE_TIMESTEP player) in
  let player' := PhysicsComponent.update PhysicsComponent.DISCRETE_TIMESTEP player
                   (Scene.map_of [tile]) in
  (top (rect moved) < top (rect tile) < bottom (rect moved))
  /\ colliderect (rect moved) (rect tile) = true
  /\ top (rect tile) = 112
  /\ y_velocity player' = 780
  /\ bottom (rect player') = 125
  /\ state player' = JUMPING
  /\ y_velocity (PhysicsComponent.handle_y_collisions moved (Scene.map_of [tile])) = 780.
Proof. cbv zeta. vm_compute. repeat split. Qed.

(** C3 (amended). Let an entity of non-negative height overlap a
    collideable block with its bottom edge strictly between the block's top
    and bottom edges (the test of [is_colliding_from_above]), and let every
    collideable block it overlaps have that same top edge and not hold the
    entity's top edge strictly inside it.  Then the vertical collision pass
    registers a landing and ends with vertical velocity 0 and the entity's
    bottom equal to the block's top; an entity that was JUMPING is IDLE
    afterwards, and any other state is kept. *)
Theorem landing_on_level_blocks (entity : Entity) (map : GameMap) (b : Block) :
  0 <= height (rect entity) ->
  In b (collideable_terrain_group map) ->
  colliderect (rect entity) (rect b) = true ->
  is_colliding_from_above entity b = true ->
  (forall c, In c (collideable_terrain_group map) ->
     colliderect (rect entity) (rect c) = true ->
     top (rect c) = top (rect b) /\ is_colliding_from_below entity c = false) ->
  let entity' := PhysicsComponent.handle_y_collisions entity map in
  y_velocity entity' = 0
  /\ bottom (rect entity') = top (rect b)
  /\ (state entity = JUMPING -> state entity' = IDLE)
  /\ (state entity <> JUMPING -> state entity' = state entity)
  /\ snd (PhysicsComponent.handle_y_collisions_flag entity map) = false.
Proof.
  intros Hh Hin Hcol Habove Hlevel. cbv zeta.
  unfold PhysicsComponent.handle_y_collisions, PhysicsComponent.handle_y_collisions_flag.
  pose proof (fold_y_collision_level entity (top (rect b))
                (spritecollide entity (collideable_terrain_group map)) Hh) as Hfold.
  cbv zeta in Hfold.
  assert (Hmem : In b (spritecollide entity (collideable_terrain_group map)))
    by (apply filter_In; split; assumption).
  destruct Hfold as [[_ Hnone] | Hland].
  - intros c Hc. apply filter_In in Hc as [Hc1 Hc2]. apply Hlevel; assumption.
  - rewrite (Hnone b Hmem) in Habove. discriminate.
  - destruct (fold_left _ _ _) as [e1 f].
    destruct Hland as (Hbottom & _ & _ & Hvy & Hf & Hjump & Hkeep). simpl in *.
    subst f. unfold when.
    destruct (PhysicsComponent.feels_gravity e1); simpl; repeat split; assumption.
Qed.

Lemma landing_on_level_blocks_witness :
  let player := set_y_velocity 120 (set_state JUMPING (Scene.player_at 110 72)) in
  let map := Scene.map_of [Scene.floor_at 100 100; Scene.floor_at 125 100] in
  y_velocity (PhysicsComponent.handle_y_collisions player map) = 0
  /\ bottom (rect (PhysicsComponent.handle_y_collisions player map))
     = top (rect (Scene.floor_at 100 100))
  /\ state (PhysicsComponent.handle_y_collisions player map) = IDLE.
Proof.
  cbv zeta.
  destruct (landing_on_level_blocks
              (set_y_velocity 120 (set_state JUMPING (Scene.player_at 110 72)))
              (Scene.map_of [Scene.floor_at 100 100; Scene.floor_at 125 100])
              (Scene.floor_at 100 100)) as (Hvy & Hbottom & Hjump & _).
  - vm_compute. intros Hgt. discriminate Hgt.
  - left. reflexivity.
  - vm_compute. reflexivity.
  - vm_compute. reflexivity.
  - intros c [<- | [<- | []]] _; vm_compute; split; reflexivity.
  - split; [exact Hvy | split; [exact Hbottom | apply Hjump; reflexivity]].
Defined.

(** Why the blocks must be level: on a stair the pass lands the player on
    the first block (top 100) and then on the second (top 90), where it
    ends. *)
Example landing_on_stairs :
  let player := set_y_velocity 120 (set_state JUMPING (Scene.player_at 110 76)) in
  let lower := Scene.floor_at 100 100 in
  let upper := Scene.floor_at 125 90 in
  let player' := PhysicsComponent.handle_y_collisions player (Scene.map_of [lower; upper]) in
  is_colliding_from_above player lower = true
  /\ top (rect lower) = 100
  /\ bottom (rect player') = 90.
Proof. cbv zeta. vm_compute. repeat split. Qed.

(** Why the statement is about the pass and not the tick: in a tick of
    17 ms the full step lands the player (velocity 0) and the remainder
    sub-step adds [int(60 * remainder * 60)] = 1 to the velocity without
    moving the player, so the tick ends on the floor with velocity 1. *)
Example landing_then_remainder_gravity :
  let player := set_y_velocity 60 (Scene.player_at 100 69) in
  let floor := Scene.floor_at 100 100 in
  let player' := PhysicsComponent.update (Scene.frame_time 17) player (Scene.map_of [floor]) in
  bottom (rect player') = top (rect floor)
  /\ y_velocity player' = 1
  /\ state player' = IDLE.
Proof. cbv zeta. vm_compute. repeat split. Qed.

(** The scenario of the specification: a player at rest one pixel above a
    floor tile with downward velocity 60 and a tick of 1/60 s ends on the
    floor, with vertical velocity 0, IDLE. *)
Example landing_scenario :
  let player := set_y_velocity 60 (Scene.player_at 100 69) in
  let floor := Scene.floor_at 100 100 in
  let player' := PhysicsComponent.update PhysicsComponent.DISCRETE_TIMESTEP player
                   (Scene.map_of [floor]) in
  bottom (rect player) = top (rect floor) - 1
  /\ bottom (rect player') = top (rect floor)
  /\ y_velocity player' = 0
  /\ state player' = IDLE.
Proof. cbv zeta. vm_compute. repeat split. Qed.

(** ** The tick: which state it ends in *)

Lemma handle_y_collisions_flag_airborne (entity : Entity) (map : GameMap) :
  let r := PhysicsComponent.handle_y_collisions_flag entity map in
  snd r = true ->
  state (fst r) <> HANGING -> state (fst r) <> CLIMBING ->
  state (fst r) = JUMPING.
Proof.
  cbv zeta. unfold PhysicsComponent.handle_y_collisions_flag.
  destruct (fold_left _ _ _) as [e1 f]. simpl. intros ->.
  unfold PhysicsComponent.feels_gravity, state_is, get_state, when.
  destruct (state e1) eqn:Hs; simpl; try rewrite Hs; congruence.
Qed.

Lemma state_x_collision (entity : Entity) (b : Block) :
  state (PhysicsComponent.x_collision entity b) = state entity.
Proof.
  unfold PhysicsComponent.x_collision, when.
  destruct (is_spike b); simpl; [reflexivity |].
  destruct (is_colliding_from_right entity b);
    match goal with |- context [if ?c then _ else _] => destruct c end; reflexivity.
Qed.

Lemma state_enemy_x_collision (enemy : Entity) (b : Block) :
  state (EnemyPhysicsComponent.x_collision enemy b) = state enemy.
Proof.
  unfold EnemyPhysicsComponent.x_collision, when.
  destruct (is_colliding_from_right enemy b);
    match goal with |- context [if ?c then _ else _] => destruct c end; reflexivity.
Qed.

Lemma state_fold (f : Entity -> Block -> Entity) (blocks : list Block) (entity : Entity) :
  (forall e b, state (f e b) = state e) ->
  state (fold_left f blocks entity) = state entity.
Proof.
  intros Hf. revert entity.
  induction blocks as [| b blocks IH]; intros entity; cbn [fold_left]; [reflexivity |].
  rewrite IH. apply Hf.
Qed.

Lemma state_handle_x_collisions (entity : Entity) (map : GameMap) :
  state (PhysicsComponent.handle_x_collisions entity map) = state entity.
Proof. apply state_fold, state_x_collision. Qed.

Lemma state_enemy_handle_x_collisions (enemy : Entity) (map : GameMap) :
  state (EnemyPhysicsComponent.handle_x_collisions enemy map) = state enemy.
Proof. apply state_fold, state_enemy_x_collision. Qed.

Lemma state_handle_map_boundary_collisions (entity : Entity) (map : GameMap) :
  state (PhysicsComponent.handle_map_boundary_collisions entity map) = state entity.
Proof.
  unfold PhysicsComponent.handle_map_boundary_collisions, when.
  destruct (top (rect entity) <? 0);
    repeat match goal with |- context [if ?c then _ else _] => destruct c end;
    reflexivity.
Qed.

Lemma state_apply_gravity (t : PrimFloat.float) (entity : Entity) :
  state (PhysicsComponent.apply_gravity t entity) = state entity.
Proof.
  unfold PhysicsComponent.apply_gravity, when.
  destruct (PhysicsComponent.feels_gravity entity); reflexivity.
Qed.

(** The tick of either component: [handle_x] stands for the method the
    component's [update] dispatches to. *)
Lemma full_step_airborne (handle_x : Entity -> GameMap -> Entity) (map : GameMap)
  (st : Entity * list bool) :
  (forall e, state (handle_x e map) = state e) ->
  airborne_after_pass (PhysicsComponent.full_step handle_x map st).
Proof.
  intros Hx. destruct st as [e passes]. unfold PhysicsComponent.full_step.
  pose proof (handle_y_collisions_flag_airborne
                (PhysicsComponent.move_y PhysicsComponent.DISCRETE_TIMESTEP
                   (PhysicsComponent.apply_gravity PhysicsComponent.DISCRETE_TIMESTEP e))
                map) as Hy.
  cbv zeta in Hy. destruct (PhysicsComponent.handle_y_collisions_flag _ map) as [e2 f].
  unfold airborne_after_pass. simpl in *. rewrite last_snoc, Hx.
  intros [= ->]. apply Hy. reflexivity.
Qed.

Lemma remainder_step_airborne (handle_x : Entity -> GameMap -> Entity) (map : GameMap)
  (t : PrimFloat.float) (st : Entity * list bool) :
  (forall e, state (handle_x e map) = state e) ->
  airborne_after_pass st ->
  airborne_after_pass (PhysicsComponent.remainder_step handle_x map t st).
Proof.
  intros Hx Hst. destruct st as [e passes]. unfold PhysicsComponent.remainder_step.
  destruct (negb (PhysicsComponent.y_displacement t (PhysicsComponent.apply_gravity t e) =? 0)).
  - pose proof (handle_y_collisions_flag_airborne
                  (PhysicsComponent.move_y t (PhysicsComponent.apply_gravity t e)) map) as Hy.
    cbv zeta in Hy. destruct (PhysicsComponent.handle_y_collisions_flag _ map) as [e2 f].
    unfold airborne_after_pass. simpl in *. rewrite last_snoc, Hx.
    intros [= ->]. apply Hy. reflexivity.
  - unfold airborne_after_pass in *. simpl in *. rewrite Hx.
    change (state (PhysicsComponent.move_x t
                     (PhysicsComponent.move_y t (PhysicsComponent.apply_gravity t e))))
      with (state (PhysicsComponent.apply_gravity t e)).
    rewrite state_apply_gravity. exact Hst.
Qed.

Lemma full_steps_airborne (handle_x : Entity -> GameMap -> Entity) (map : GameMap)
  (n : nat) (entity : Entity) :
  (forall e, state (handle_x e map) = state e) ->
  airborne_after_pass (Nat.iter n (PhysicsComponent.full_step handle_x map) (entity, [])).
Proof.
  intros Hx. destruct n as [| n]; simpl.
  - unfold airborne_after_pass. simpl. discriminate.
  - apply full_step_airborne, Hx.
Qed.

Lemma update_passes_airborne (handle_x : Entity -> GameMap -> Entity) (map : GameMap)
  (delta_time : PrimFloat.float) (entity : Entity) :
  (forall e, state (handle_x e map) = state e) ->
  airborne_after_pass (PhysicsComponent.update_passes handle_x map delta_time entity).
Proof.
  intros Hx. unfold PhysicsComponent.update_passes, PhysicsComponent.integrate.
  pose proof (remainder_step_airborne handle_x map
                (PhysicsComponent.remainder_time delta_time)
                (Nat.iter (Z.to_nat (PhysicsComponent.num_full_steps delta_time))
                   (PhysicsComponent.full_step handle_x map) (entity, []))
                Hx (full_steps_airborne handle_x map _ entity Hx)) as H.
  destruct (PhysicsComponent.remainder_step _ _ _ _) as [e passes].
  unfold airborne_after_pass in *. simpl in *.
  rewrite state_handle_map_boundary_collisions. exact H.
Qed.

Lemma no_landing_last (passes : list bool) :
  passes <> [] -> no_landing passes -> last passes = Some true.
Proof.
  intros Hne Hall. destruct (last passes) as [f |] eqn:Hlast.
  - apply last_Some in Hlast as [l' ->].
    apply Forall_app in Hall as [_ Hf]. inversion Hf; subst. reflexivity.
  - apply last_None in Hlast. contradiction.
Qed.

(** C2 (the claim fails here). A tick of 16 ms is shorter than the fixed
    step: no full step runs, and the remainder sub-step moves the entity by
    [int(57 * 0.016)] = 0 pixels, so the vertical pass is skipped.  An IDLE
    player, with no landing contact in the tick, is still IDLE at its end. *)
Lemma short_tick_leaves_idle_without_landing :
  let r := PhysicsComponent.update_passes PhysicsComponent.handle_x_collisions
             (Scene.map_of [Scene.floor_at 100 100]) (Scene.frame_time 16)
             (Scene.player_at 100 70) in
  snd r = []
  /\ state (fst r) = IDLE
  /\ fst r = PhysicsComponent.update (Scene.frame_time 16) (Scene.player_at 100 70)
               (Scene.map_of [Scene.floor_at 100 100])
  /\ state (PhysicsComponent.update (Scene.frame_time 0) (Scene.player_at 100 70)
               Scene.open_map) = IDLE.
Proof. cbv zeta. vm_compute. repeat split. Qed.

(** C2 (amended). For either physics component and every elapsed time, if
    at least one vertical collision pass ran during the tick, no pass of the
    tick registered a landing (from-above) contact, and the entity's state
    at the end of the tick is neither HANGING nor CLIMBING, then that state
    is JUMPING.  (A pass runs in every full step, and in the remainder
    sub-step only when its vertical displacement is not zero.) *)
Theorem airborne_when_no_landing
  (self_handle_x_collisions : Entity -> GameMap -> Entity)
  (delta_time : PrimFloat.float) (entity : Entity) (map : GameMap) :
  self_handle_x_collisions = PhysicsComponent.handle_x_collisions
  \/ self_handle_x_collisions = EnemyPhysicsComponent.handle_x_collisions ->
  let r := PhysicsComponent.update_passes self_handle_x_collisions map delta_time entity in
  snd r <> [] ->
  no_landing (snd r) ->
  state (fst r) <> HANGING ->
  state (fst r) <> CLIMBING ->
  state (fst r) = JUMPING.
Proof.
  intros Hself. cbv zeta. intros Hran Hnone Hh Hc.
  apply update_passes_airborne; try assumption.
  - intros e. destruct Hself as [-> | ->].
    + apply state_handle_x_collisions.
    + apply state_enemy_handle_x_collisions.
  - apply no_landing_last; assumption.
Qed.

Lemma airborne_when_no_landing_witness :
  state (fst (PhysicsComponent.update_passes PhysicsComponent.handle_x_collisions
                Scene.open_map (truediv 1 30) (Scene.player_at 100 70))) = JUMPING.
Proof.
  apply (airborne_when_no_landing PhysicsComponent.handle_x_collisions
           (truediv 1 30) (Scene.player_at 100 70) Scene.open_map).
  - left. reflexivity.
  - vm_compute. intros H. discriminate H.
  - vm_compute. repeat constructor.
  - vm_compute. intros H. discriminate H.
  - vm_compute. intros H. discriminate H.
Defined.

(** ** Truncation of rationals *)

Lemma py_int_nonneg (q : Q) : (0 <= q)%Q -> py_int q = Qfloor q.
Proof. intros H. unfold py_int. apply Qle_bool_iff in H. rewrite H. reflexivity. Qed.

Lemma Qfloor_unique (q : Q) (z : Z) :
  (inject_Z z <= q < inject_Z (z + 1))%Q -> Qfloor q = z.
Proof.
  intros [Hlo Hhi]. apply Z.le_antisymm.
  - apply Z.lt_succ_r. rewrite Zlt_Qlt. unfold Z.succ.
    eapply Qle_lt_trans; [apply Qfloor_le | exact Hhi].
  - rewrite <- (Qfloor_Z z). apply Qfloor_resp_le. exact Hlo.
Qed.

(** ** Motion without terrain contact *)

Lemma handle_x_collisions_free (entity : Entity) (map : GameMap) :
  collideable_terrain_group map = [] ->
  PhysicsComponent.handle_x_collisions entity map = entity.
Proof.
  intros H. unfold PhysicsComponent.handle_x_collisions, spritecollide.
  rewrite H. reflexivity.
Qed.

Lemma handle_y_collisions_flag_free (entity : Entity) (map : GameMap) :
  collideable_terrain_group map = [] ->
  PhysicsComponent.handle_y_collisions_flag entity map
  = (if PhysicsComponent.feels_gravity entity then set_state JUMPING entity else entity,
     true).
Proof.
  intros H. unfold PhysicsComponent.handle_y_collisions_flag, spritecollide.
  rewrite H. reflexivity.
Qed.

Lemma x_displacement_ext (t : PrimFloat.float) (e1 e2 : Entity) :
  x_velocity e1 = x_velocity e2 ->
  PhysicsComponent.x_displacement t e1 = PhysicsComponent.x_displacement t e2.
Proof. unfold PhysicsComponent.x_displacement. intros ->. reflexivity. Qed.

Lemma y_displacement_ext (t : PrimFloat.float) (e1 e2 : Entity) :
  y_velocity e1 = y_velocity e2 ->
  PhysicsComponent.y_displacement t e1 = PhysicsComponent.y_displacement t e2.
Proof. unfold PhysicsComponent.y_displacement. intros ->. reflexivity. Qed.

Section FreeMotion.

Variable map : GameMap.
Hypothesis no_terrain : collideable_terrain_group map = [].

Let full_step := PhysicsComponent.full_step PhysicsComponent.handle_x_collisions map.
Let remainder_step := PhysicsComponent.remainder_step PhysicsComponent.handle_x_collisions map.

Lemma full_step_free_x (entity : Entity) (passes : list bool) :
  let entity' := fst (full_step (entity, passes)) in
  x_velocity entity' = x_velocity entity
  /\ x (rect entity')
     = x (rect entity)
       + PhysicsComponent.x_displacement PhysicsComponent.DISCRETE_TIMESTEP entity.
Proof using no_terrain.
  cbv zeta. unfold full_step, PhysicsComponent.full_step.
  rewrite handle_y_collisions_flag_free by exact no_terrain.
  rewrite handle_x_collisions_free by exact no_terrain.
  unfold PhysicsComponent.apply_gravity, when.
  destruct (PhysicsComponent.feels_gravity entity);
    match goal with |- context [if ?c then _ else _] => destruct c end;
    split; reflexivity.
Qed.

Lemma full_step_free_y (entity : Entity) (passes : list bool) :
  PhysicsComponent.feels_gravity entity = false ->
  let entity' := fst (full_step (entity, passes)) in
  PhysicsComponent.feels_gravity entity' = false
  /\ y_velocity entity' = y_velocity entity
  /\ y (rect entity')
     = y (rect entity)
       + PhysicsComponent.y_displacement PhysicsComponent.DISCRETE_TIMESTEP entity.
Proof using no_terrain.
  intros Hg. cbv zeta. unfold full_step, PhysicsComponent.full_step.
  rewrite handle_y_collisions_flag_free by exact no_terrain.
  rewrite handle_x_collisions_free by exact no_terrain.
  unfold PhysicsComponent.apply_gravity, when. rewrite Hg.
  change (PhysicsComponent.feels_gravity
            (PhysicsComponent.move_y PhysicsComponent.DISCRETE_TIMESTEP entity))
    with (PhysicsComponent.feels_gravity entity).
  rewrite Hg. repeat split. exact Hg.
Qed.

Lemma full_steps_free_x (n : nat) (entity : Entity) :
  let entity' := fst (Nat.iter n full_step (entity, [])) in
  x_velocity entity' = x_velocity entity
  /\ x (rect entity')
     = x (rect entity)
       + Z.of_nat n
         * PhysicsComponent.x_displacement PhysicsComponent.DISCRETE_TIMESTEP entity.
Proof using no_terrain.
  cbv zeta. induction n as [| n [IHv IHx]].
  - simpl. split; [reflexivity | lia].
  - change (Nat.iter (S n) full_step (entity, []))
      with (full_step (Nat.iter n full_step (entity, []))).
    destruct (Nat.iter n full_step (entity, [])) as [e passes].
    simpl in IHv, IHx.
    destruct (full_step_free_x e passes) as [Hv Hx]. cbv zeta in Hv, Hx.
    split.
    + transitivity (x_velocity e); [exact Hv | exact IHv].
    + etransitivity; [exact Hx |].
      rewrite IHx, (x_displacement_ext _ e entity IHv). lia.
Qed.

Lemma full_steps_free_y (n : nat) (entity : Entity) :
  PhysicsComponent.feels_gravity entity = false ->
  let entity' := fst (Nat.iter n full_step (entity, [])) in
  PhysicsComponent.feels_gravity entity' = false
  /\ y_velocity entity' = y_velocity entity
  /\ y (rect entity')
     = y (rect entity)
       + Z.of_nat n
         * PhysicsComponent.y_displacement PhysicsComponent.DISCRETE_TIMESTEP entity.
Proof using no_terrain.
  intros Hg. cbv zeta. induction n as [| n (IHg & IHv & IHy)].
  - simpl. repeat split; [exact Hg | lia].
  - change (Nat.iter (S n) full_step (entity, []))
      with (full_step (Nat.iter n full_step (entity, []))).
    destruct (Nat.iter n full_step (entity, [])) as [e passes].
    simpl in IHg, IHv, IHy.
    destruct (full_step_free_y e passes IHg) as (Hg' & Hv & Hy). cbv zeta in Hg', Hv, Hy.
    split; [exact Hg' | split].
    + transitivity (y_velocity e); [exact Hv | exact IHv].
    + etransitivity; [exact Hy |].
      rewrite IHy, (y_displacement_ext _ e entity IHv). lia.
Qed.

Lemma remainder_step_free_x (t : PrimFloat.float) (entity : Entity) (passes : list bool) :
  x (rect (fst (remainder_step t (entity, passes))))
  = x (rect entity) + PhysicsComponent.x_displacement t entity.
Proof using no_terrain.
  unfold remainder_step, PhysicsComponent.remainder_step.
  destruct (negb _).
  - rewrite handle_y_collisions_flag_free by exact no_terrain.
    rewrite handle_x_collisions_free by exact no_terrain.
    unfold PhysicsComponent.apply_gravity, when.
    destruct (PhysicsComponent.feels_gravity entity);
      match goal with |- context [if ?c then _ else _] => destruct c end;
      reflexivity.
  - rewrite handle_x_collisions_free by exact no_terrain.
    unfold PhysicsComponent.apply_gravity, when.
    destruct (PhysicsComponent.feels_gravity entity); reflexivity.
Qed.

Lemma remainder_step_free_y (t : PrimFloat.float) (entity : Entity) (passes : list bool) :
  PhysicsComponent.feels_gravity entity = false ->
  y (rect (fst (remainder_step t (entity, passes))))
  = y (rect entity) + PhysicsComponent.y_displacement t entity.
Proof using no_terrain.
  intros Hg. unfold remainder_step, PhysicsComponent.remainder_step.
  unfold PhysicsComponent.apply_gravity, when. rewrite Hg.
  destruct (negb _).
  - rewrite handle_y_collisions_flag_free by exact no_terrain.
    rewrite handle_x_collisions_free by exact no_terrain.
    change (PhysicsComponent.feels_gravity (PhysicsComponent.move_y t entity))
      with (PhysicsComponent.feels_gravity entity).
    rewrite Hg. reflexivity.
  - rewrite handle_x_collisions_free by exact no_terrain. reflexivity.
Qed.

End FreeMotion.

(** ** The decomposition of the tick *)

Lemma snd_full_step (handle_x : Entity -> GameMap -> Entity) (map : GameMap)
  (st : Entity * list bool) :
  exists isJumping : bool,
    snd (PhysicsComponent.full_step handle_x map st) = snd st ++ [isJumping].
Proof.
  destruct st as [e passes]. unfold PhysicsComponent.full_step.
  destruct (PhysicsComponent.handle_y_collisions_flag _ map) as [e2 f].
  exists f. reflexivity.
Qed.

Lemma length_full_steps (handle_x : Entity -> GameMap -> Entity) (map : GameMap)
  (n : nat) (entity : Entity) :
  length (snd (Nat.iter n (PhysicsComponent.full_step handle_x map) (entity, []))) = n.
Proof.
  induction n as [| n IH]; [reflexivity |].
  change (Nat.iter (S n) (PhysicsComponent.full_step handle_x map) (entity, []))
    with (PhysicsComponent.full_step handle_x map
            (Nat.iter n (PhysicsComponent.full_step handle_x map) (entity, []))).
  destruct (snd_full_step handle_x map
              (Nat.iter n (PhysicsComponent.full_step handle_x map) (entity, [])))
    as [f ->].
  rewrite length_app, IH. simpl. lia.
Qed.

Lemma length_remainder_step (handle_x : Entity -> GameMap -> Entity) (map : GameMap)
  (t : PrimFloat.float) (st : Entity * list bool) :
  (length (snd st)
   <= length (snd (PhysicsComponent.remainder_step handle_x map t st))
   <= length (snd st) + 1)%nat.
Proof.
  destruct st as [e passes]. unfold PhysicsComponent.remainder_step.
  destruct (negb _).
  - destruct (PhysicsComponent.handle_y_collisions_flag _ map) as [e2 f].
    simpl. rewrite length_app. simpl. lia.
  - simpl. lia.
Qed.

(** The loop [for i in range(0, num_full_steps)] runs [max(0, n)] times. *)
Lemma full_steps_run (delta_time : PrimFloat.float) :
  Z.of_nat (Z.to_nat (PhysicsComponent.num_full_steps delta_time))
  = Z.max 0 (PhysicsComponent.num_full_steps delta_time).
Proof. lia. Qed.

(** One vertical pass per full step, and at most one more. *)
Lemma passes_of_tick (handle_x : Entity -> GameMap -> Entity) (map : GameMap)
  (delta_time : PrimFloat.float) (entity : Entity) :
  Z.max 0 (PhysicsComponent.num_full_steps delta_time)
  <= Z.of_nat (length (snd (PhysicsComponent.integrate handle_x map delta_time entity)))
  <= Z.max 0 (PhysicsComponent.num_full_steps delta_time) + 1.
Proof.
  unfold PhysicsComponent.integrate.
  pose proof (length_remainder_step handle_x map
                (PhysicsComponent.remainder_time delta_time)
                (Nat.iter (Z.to_nat (PhysicsComponent.num_full_steps delta_time))
                   (PhysicsComponent.full_step handle_x map) (entity, []))) as H.
  rewrite length_full_steps in H.
  rewrite <- full_steps_run. lia.
Qed.

(** From one full step on, a tick runs a vertical pass. *)
Lemma pass_runs_in_long_tick (handle_x : Entity -> GameMap -> Entity) (map : GameMap)
  (delta_time : PrimFloat.float) (entity : Entity) :
  1 <= PhysicsComponent.num_full_steps delta_time ->
  snd (PhysicsComponent.update_passes handle_x map delta_time entity) <> [].
Proof.
  intros Hone. unfold PhysicsComponent.update_passes.
  pose proof (passes_of_tick handle_x map delta_time entity) as Hlen.
  destruct (PhysicsComponent.integrate handle_x map delta_time entity) as [e passes].
  simpl in *. intros ->. simpl in Hlen. lia.
Qed.

(** A tick of the fixed step or of a frame at 30 frames per second has a
    full step. *)
Example full_steps_of_usual_ticks :
  PhysicsComponent.num_full_steps PhysicsComponent.DISCRETE_TIMESTEP = 1
  /\ PhysicsComponent.num_full_steps (Scene.frame_time 17) = 1
  /\ PhysicsComponent.num_full_steps (Scene.frame_time 33) = 1
  /\ PhysicsComponent.num_full_steps (Scene.frame_time 16) = 0.
Proof. vm_compute. repeat split. Qed.

Lemma feels_gravity_false (entity : Entity) :
  state entity = HANGING \/ state entity = CLIMBING ->
  PhysicsComponent.feels_gravity entity = false.
Proof.
  unfold PhysicsComponent.feels_gravity, get_state. intros [-> | ->]; reflexivity.
Qed.

(** C4 (the claim fails here).  Three ticks, in double precision.

    Free fall: a JUMPING player at rest falls for one second in a map
    without terrain.  The 60 sub-steps move it by 1 + 2 + ... + 60 = 1830
    pixels; the same second processed as a single step moves it by 3600
    pixels.

    A frame of 150 ms: [int(0.15 / (1 / 60))] is 9 and [0.15 % (1 / 60)] is
    0.016666666666666663, almost a tenth step, so the durations do not add
    up to the frame time.  A player walking at 180 units per second moves
    exactly 3 pixels in each full sub-step and 2 in the remainder, 29 in
    all; the single step moves it by 27.  Truncation shortens a
    displacement, it never lengthens one.

    Tunneling: a player takes off at the jump velocity (-750) below
    upright spikes (box 100, 117, 25, 7), its top at 147, in a frame of
    50 ms.  The single step moves it by 28 pixels, its top (119) inside the
    spikes: it bumps its head, and ends below the spikes (top 124) at rest.
    The three sub-steps move it by 11, 10 and 9 pixels, to 136, to 126 and
    then exactly to the top edge of the spikes (117): no test of the
    vertical pass holds, and the tick ends with the player inside the
    spikes, still rising at 570 units per second. *)
Lemma substeps_are_another_integration :
  let faller := set_state JUMPING (Scene.player_at 100 100) in
  let second := Scene.frame_time 1000 in
  let walker := set_x_velocity 180 (set_state WALKING (Scene.player_at 100 100)) in
  let frame := Scene.frame_time 150 in
  let riser := set_y_velocity UserControlComponent.JUMP_VELOCITY
                 (set_state JUMPING (Scene.player_at 100 147)) in
  let tick := Scene.frame_time 50 in
  let below_spikes := Scene.map_of [Scene.spikes] in
  let single := PhysicsComponent.single_step PhysicsComponent.handle_x_collisions in
  (* free fall *)
  (PhysicsComponent.num_full_steps second = 60
   /\ y (rect (PhysicsComponent.update second faller Scene.open_map)) - y (rect faller) = 1830
   /\ y (rect (single Scene.open_map second faller)) - y (rect faller) = 3600)
  (* the frame of 150 ms *)
  /\ (PhysicsComponent.num_full_steps frame = 9
      /\ PhysicsComponent.x_displacement PhysicsComponent.DISCRETE_TIMESTEP walker = 3
      /\ PhysicsComponent.x_displacement (PhysicsComponent.remainder_time frame) walker = 2
      /\ x (rect (PhysicsComponent.update frame walker Scene.open_map)) - x (rect walker) = 29
      /\ x (rect (single Scene.open_map frame walker)) - x (rect walker) = 27)
  (* tunneling *)
  /\ (PhysicsComponent.num_full_steps tick = 3
      /\ rect Scene.spikes = mkRect 100 117 25 7
      /\ PhysicsComponent.y_displacement tick
           (PhysicsComponent.apply_gravity tick riser) = -28
      /\ top (rect (single below_spikes tick riser)) = 124
      /\ y_velocity (single below_spikes tick riser) = 0
      /\ top (rect (PhysicsComponent.update tick riser below_spikes)) = 117
      /\ y_velocity (PhysicsComponent.update tick riser below_spikes) = -570
      /\ colliderect (rect (PhysicsComponent.update tick riser below_spikes))
           (rect Scene.spikes) = true).
Proof. cbv zeta. vm_compute. repeat split. Qed.

(** C4 (amended).  For every elapsed time the tick runs
    [int(delta_time / (1 / 60))] full sub-steps of 1/60 s (none when that
    number is not positive), then one remainder sub-step of duration
    [delta_time % (1 / 60)], both in double precision, and then the
    boundary resolution; each full sub-step runs one vertical pass and the
    remainder at most one.  For an entity in a map without collideable
    terrain, the horizontal displacement of the tick before the boundary
    resolution is the sum of the truncated displacements of the sub-steps,
    [n * int(x_velocity * (1 / 60)) + int(x_velocity * remainder)]; while
    the entity is HANGING or CLIMBING (no gravity) the same holds
    vertically. *)
Theorem tick_runs_full_steps_then_remainder
  (delta_time : PrimFloat.float) (entity : Entity) (map : GameMap) :
  let step := PhysicsComponent.DISCRETE_TIMESTEP in
  let n := Z.max 0 (int_of_float (delta_time / step)%float) in
  let r := float_rem delta_time step in
  let ticked := PhysicsComponent.integrate PhysicsComponent.handle_x_collisions
                  map delta_time entity in
  let stepped := fst ticked in
  ticked
  = PhysicsComponent.remainder_step PhysicsComponent.handle_x_collisions map r
      (Nat.iter (Z.to_nat n)
         (PhysicsComponent.full_step PhysicsComponent.handle_x_collisions map)
         (entity, []))
  /\ PhysicsComponent.update delta_time entity map
     = PhysicsComponent.handle_map_boundary_collisions stepped map
  /\ n <= Z.of_nat (length (snd ticked)) <= n + 1
  /\ (collideable_terrain_group map = [] ->
      x (rect stepped) - x (rect entity)
      = n * PhysicsComponent.x_displacement step entity
        + PhysicsComponent.x_displacement r entity)
  /\ (collideable_terrain_group map = [] ->
      state entity = HANGING \/ state entity = CLIMBING ->
      y (rect stepped) - y (rect entity)
      = n * PhysicsComponent.y_displacement step entity
        + PhysicsComponent.y_displacement r entity).
Proof.
  cbv zeta.
  change (int_of_float (delta_time / PhysicsComponent.DISCRETE_TIMESTEP)%float)
    with (PhysicsComponent.num_full_steps delta_time).
  change (float_rem delta_time PhysicsComponent.DISCRETE_TIMESTEP)
    with (PhysicsComponent.remainder_time delta_time).
  split; [| split; [| split; [| split]]].
  - unfold PhysicsComponent.integrate. rewrite Z2Nat.inj_max. reflexivity.
  - unfold PhysicsComponent.update, PhysicsComponent.update_with,
      PhysicsComponent.update_passes.
    destruct (PhysicsComponent.integrate _ map delta_time entity) as [e passes].
    reflexivity.
  - apply passes_of_tick.
  - intros Hfree. unfold PhysicsComponent.integrate.
    pose proof (full_steps_free_x map Hfree
                  (Z.to_nat (PhysicsComponent.num_full_steps delta_time)) entity) as Hfx.
    cbv zeta in Hfx. rewrite full_steps_run in Hfx.
    destruct (Nat.iter _ _ (entity, [])) as [e passes]. simpl fst in Hfx.
    destruct Hfx as [Hv Hx].
    pose proof (remainder_step_free_x map Hfree
                  (PhysicsComponent.remainder_time delta_time) e passes) as Hrx.
    rewrite (x_displacement_ext _ e entity Hv) in Hrx. lia.
  - intros Hfree Hstate. apply feels_gravity_false in Hstate.
    unfold PhysicsComponent.integrate.
    pose proof (full_steps_free_y map Hfree
                  (Z.to_nat (PhysicsComponent.num_full_steps delta_time)) entity Hstate)
      as Hfy.
    cbv zeta in Hfy. rewrite full_steps_run in Hfy.
    destruct (Nat.iter _ _ (entity, [])) as [e passes]. simpl fst in Hfy.
    destruct Hfy as (Hg & Hvy & Hy).
    pose proof (remainder_step_free_y map Hfree
                  (PhysicsComponent.remainder_time delta_time) e passes Hg) as Hry.
    rewrite (y_displacement_ext _ e entity Hvy) in Hry. lia.
Qed.

Lemma tick_runs_full_steps_then_remainder_witness :
  let walker := set_x_velocity 180 (set_state WALKING (Scene.player_at 100 100)) in
  let frame := Scene.frame_time 150 in
  x (rect (fst (PhysicsComponent.integrate PhysicsComponent.handle_x_collisions
                  Scene.open_map frame walker))) - x (rect walker)
  = 9 * 3 + 2.
Proof.
  cbv zeta.
  destruct (tick_runs_full_steps_then_remainder (Scene.frame_time 150)
              (set_x_velocity 180 (set_state WALKING (Scene.player_at 100 100)))
              Scene.open_map)
    as (_ & _ & _ & Hx & _).
  cbv zeta in Hx. rewrite Hx; [| reflexivity].
  vm_compute. reflexivity.
Defined.

(** A frame of 45 ms at 100 units per second: two full steps of 1 pixel and
    a remainder of 1 pixel against 4 pixels in a single step. *)
Example walking_tick_displacements :
  let player := set_x_velocity 100 (set_state WALKING (Scene.player_at 100 100)) in
  PhysicsComponent.num_full_steps (Scene.frame_time 45) = 2
  /\ x (rect (PhysicsComponent.update (Scene.frame_time 45) player Scene.open_map))
     - x (rect player) = 3
  /\ x (rect (PhysicsComponent.single_step PhysicsComponent.handle_x_collisions
                Scene.open_map (Scene.frame_time 45) player)) - x (rect player) = 4.
Proof. cbv zeta. vm_compute. repeat split. Qed.

(** * Further properties of the code *)

(** ** The control component, state by state *)

(** Case analysis of a control tick: the entity's fields, its state and the
    five keys. *)
Ltac control_cases is_pressed entity :=
  destruct entity as [vx vy d s r ms];
  unfold UserControlComponent.update, UserControlComponent.handle_idle_entity,
    UserControlComponent.handle_walking_entity,
    UserControlComponent.handle_jumping_entity,
    UserControlComponent.handle_hanging_entity,
    UserControlComponent.handle_climbing_entity, when, get_state in *;
  cbn [state x_velocity y_velocity direction messages entity_rect] in *;
  destruct s;
  destruct (is_pressed K_LEFT), (is_pressed K_RIGHT), (is_pressed K_UP),
    (is_pressed K_DOWN), (is_pressed K_SPACE);
  cbn in *;
  repeat match goal with
         | |- context [state_is ?a ?b] =>
             let v := eval vm_compute in (state_is a b) in
             change (state_is a b) with v
         | H : context [state_is ?a ?b] |- _ =>
             let v := eval vm_compute in (state_is a b) in
             change (state_is a b) with v in H
         end;
  cbn in *.

Ltac snoc_absurd :=
  match goal with
  | H : ?l = ?l ++ [_] |- _ => exfalso; exact (snoc_neq _ _ H)
  end.

(** X1. The control component never moves the entity: whatever the state
    and the keys, the rect after [update] is the rect before. *)
Theorem control_update_keeps_rect (is_pressed : Key -> bool) (entity : Entity) :
  rect (UserControlComponent.update is_pressed entity) = rect entity.
Proof. control_cases is_pressed entity; reflexivity. Qed.

(** X2. A control tick sends JUMP, once, exactly when Space is held and
    the entity is IDLE, WALKING or HANGING on entry; the entity is then
    JUMPING with vertical velocity -750.  In every other case the messages
    are left as they were. *)
Theorem control_update_jump_message (is_pressed : Key -> bool) (entity : Entity) :
  let entity' := UserControlComponent.update is_pressed entity in
  (messages entity' = messages entity ++ [JUMP] <->
     is_pressed K_SPACE = true
     /\ (state entity = IDLE \/ state entity = WALKING \/ state entity = HANGING))
  /\ (messages entity' = messages entity ++ [JUMP] ->
      state entity' = JUMPING /\ y_velocity entity' = -750)
  /\ (messages entity' = messages entity \/ messages entity' = messages entity ++ [JUMP]).
Proof.
  cbv zeta. control_cases is_pressed entity;
    (split; [split; [intros H; try snoc_absurd; auto
                    | intros [Hk Hs]; try discriminate Hk;
                      try (destruct Hs as [Hs | [Hs | Hs]]; discriminate Hs);
                      reflexivity]
            | split; [intros H; try snoc_absurd; auto | auto]]).
Qed.

(** X3. There is no jump in the air: a control tick leaves a JUMPING entity
    JUMPING, with its vertical velocity and its messages untouched,
    whatever keys are held. *)
Theorem control_update_in_the_air (is_pressed : Key -> bool) (entity : Entity) :
  state entity = JUMPING ->
  let entity' := UserControlComponent.update is_pressed entity in
  state entity' = JUMPING
  /\ y_velocity entity' = y_velocity entity
  /\ messages entity' = messages entity.
Proof.
  intros Hs. cbv zeta. control_cases is_pressed entity; try discriminate Hs; auto.
Qed.

Lemma control_update_in_the_air_witness :
  let player := set_y_velocity (-300) (set_state JUMPING (Scene.player_at 10 10)) in
  state (UserControlComponent.update Scene.space_only player) = JUMPING
  /\ y_velocity (UserControlComponent.update Scene.space_only player) = -300
  /\ messages (UserControlComponent.update Scene.space_only player) = messages player.
Proof.
  cbv zeta.
  apply (control_update_in_the_air Scene.space_only
           (set_y_velocity (-300) (set_state JUMPING (Scene.player_at 10 10)))).
  reflexivity.
Defined.

(** X4. For an IDLE, WALKING or JUMPING entity the horizontal velocity
    after a control tick depends on the keys alone: +180 when Right is
    held, else -180 when Left is held, else 0; and the entity faces the way
    it moves, keeping its direction when neither key is held. *)
Theorem control_update_horizontal (is_pressed : Key -> bool) (entity : Entity) :
  state entity = IDLE \/ state entity = WALKING \/ state entity = JUMPING ->
  let entity' := UserControlComponent.update is_pressed entity in
  x_velocity entity'
    = (if is_pressed K_RIGHT then 180 else if is_pressed K_LEFT then -180 else 0)
  /\ direction entity'
     = (if is_pressed K_RIGHT then RIGHT
        else if is_pressed K_LEFT then LEFT
        else direction entity).
Proof.
  intros Hs. cbv zeta.
  destruct (is_pressed K_RIGHT) eqn:HR, (is_pressed K_LEFT) eqn:HL;
    destruct entity as [vx vy d s r ms];
    unfold UserControlComponent.update, UserControlComponent.handle_idle_entity,
      UserControlComponent.handle_walking_entity,
      UserControlComponent.handle_jumping_entity, when, get_state;
    cbn [state] in *;
    destruct Hs as [-> | [-> | ->]]; rewrite ?HR, ?HL;
    destruct (is_pressed K_SPACE); cbn; auto.
Qed.

Lemma control_update_horizontal_witness :
  x_velocity (UserControlComponent.update Scene.left_and_right
                (set_state JUMPING (Scene.player_at 10 10))) = 180
  /\ direction (UserControlComponent.update Scene.left_and_right
                  (set_state JUMPING (Scene.player_at 10 10))) = RIGHT.
Proof.
  apply (control_update_horizontal Scene.left_and_right
           (set_state JUMPING (Scene.player_at 10 10))).
  right. right. reflexivity.
Defined.

(** X5. The ground states: for an IDLE or WALKING entity a control tick
    ends JUMPING when Space is held, else WALKING when Left or Right is
    held, else IDLE; it never ends HANGING or CLIMBING. *)
Theorem control_update_on_the_ground (is_pressed : Key -> bool) (entity : Entity) :
  state entity = IDLE \/ state entity = WALKING ->
  state (UserControlComponent.update is_pressed entity)
  = (if is_pressed K_SPACE then JUMPING
     else if is_pressed K_LEFT || is_pressed K_RIGHT then WALKING
     else IDLE).
Proof.
  intros Hs.
  destruct (is_pressed K_SPACE) eqn:HS, (is_pressed K_LEFT) eqn:HL,
    (is_pressed K_RIGHT) eqn:HR;
    destruct entity as [vx vy d s r ms];
    unfold UserControlComponent.update, UserControlComponent.handle_idle_entity,
      UserControlComponent.handle_walking_entity, when, get_state;
    cbn [state] in *;
    destruct Hs as [-> | ->]; rewrite ?HS, ?HL, ?HR; reflexivity.
Qed.

Lemma control_update_on_the_ground_witness :
  state (UserControlComponent.update Scene.no_keys
           (set_state WALKING (Scene.player_at 10 10))) = IDLE.
Proof.
  apply (control_update_on_the_ground Scene.no_keys
           (set_state WALKING (Scene.player_at 10 10))).
  right. reflexivity.
Defined.

(** X6. On a ladder, hanging: a control tick stops a HANGING entity
    horizontally; with Space it ends JUMPING at -750; otherwise with Up or
    Down it ends CLIMBING and the climbing handler of the same tick sets the
    velocity, +180 when Down is held and -120 for Up alone; otherwise it
    stays HANGING at velocity 0.  Facing is inverted: Right held faces LEFT,
    Left alone faces RIGHT. *)
Theorem control_update_hanging (is_pressed : Key -> bool) (entity : Entity) :
  state entity = HANGING ->
  let entity' := UserControlComponent.update is_pressed entity in
  x_velocity entity' = 0
  /\ state entity'
     = (if is_pressed K_SPACE then JUMPING
        else if is_pressed K_UP || is_pressed K_DOWN then CLIMBING
        else HANGING)
  /\ y_velocity entity'
     = (if is_pressed K_SPACE then -750
        else if is_pressed K_DOWN then 180
        else if is_pressed K_UP then -120
        else 0)
  /\ direction entity'
     = (if is_pressed K_RIGHT then LEFT
        else if is_pressed K_LEFT then RIGHT
        else direction entity).
Proof.
  intros Hs. cbv zeta.
  destruct (is_pressed K_SPACE) eqn:HS, (is_pressed K_UP) eqn:HU,
    (is_pressed K_DOWN) eqn:HD, (is_pressed K_RIGHT) eqn:HR,
    (is_pressed K_LEFT) eqn:HL;
    destruct entity as [vx vy d s r ms];
    unfold UserControlComponent.update, UserControlComponent.handle_hanging_entity,
      UserControlComponent.handle_climbing_entity, when, get_state;
    cbn [state] in *; subst s; rewrite ?HS, ?HU, ?HD, ?HR, ?HL; cbn;
    rewrite ?HS, ?HU, ?HD, ?HR, ?HL; cbn; auto.
Qed.

Lemma control_update_hanging_witness :
  state (UserControlComponent.update Scene.up_only
           (set_state HANGING (Scene.player_at 10 10))) = CLIMBING
  /\ y_velocity (UserControlComponent.update Scene.up_only
                   (set_state HANGING (Scene.player_at 10 10))) = -120.
Proof.
  destruct (control_update_hanging Scene.up_only
              (set_state HANGING (Scene.player_at 10 10)) eq_refl)
    as (_ & Hstate & Hvy & _).
  split; [exact Hstate | exact Hvy].
Defined.

(** X7. On a ladder, climbing: a control tick keeps a CLIMBING entity's
    horizontal velocity, direction and messages; with Up or Down held it
    stays CLIMBING at +180 (Down, which wins over Up) or -120 (Up alone);
    with neither it falls back to HANGING and keeps the vertical velocity
    it had, Space being ignored. *)
Theorem control_update_climbing (is_pressed : Key -> bool) (entity : Entity) :
  state entity = CLIMBING ->
  let entity' := UserControlComponent.update is_pressed entity in
  x_velocity entity' = x_velocity entity
  /\ direction entity' = direction entity
  /\ messages entity' = messages entity
  /\ state entity'
     = (if is_pressed K_UP || is_pressed K_DOWN then CLIMBING else HANGING)
  /\ y_velocity entity'
     = (if is_pressed K_DOWN then 180
        else if is_pressed K_UP then -120
        else y_velocity entity).
Proof.
  intros Hs. cbv zeta.
  destruct (is_pressed K_UP) eqn:HU, (is_pressed K_DOWN) eqn:HD;
    destruct entity as [vx vy d s r ms];
    unfold UserControlComponent.update, UserControlComponent.handle_climbing_entity,
      when, get_state;
    cbn [state] in *; subst s; cbn; rewrite ?HU, ?HD; cbn; auto.
Qed.

Lemma control_update_climbing_witness :
  state (UserControlComponent.update Scene.space_only
           (set_y_velocity (-120) (set_state CLIMBING (Scene.player_at 10 10))))
  = HANGING
  /\ y_velocity (UserControlComponent.update Scene.space_only
                   (set_y_velocity (-120) (set_state CLIMBING (Scene.player_at 10 10))))
     = -120.
Proof.
  destruct (control_update_climbing Scene.space_only
              (set_y_velocity (-120) (set_state CLIMBING (Scene.player_at 10 10)))
              eq_refl)
    as (_ & _ & _ & Hstate & Hvy).
  split; [exact Hstate | exact Hvy].
Defined.

(** ** The enemy patrol *)

(** X8. After a patrol tick the enemy is WALKING and moves the way it
    faces at the walking speed: either it faces LEFT with velocity
    [- walking_speed] or it faces RIGHT with velocity [walking_speed]; its
    rect, vertical velocity, messages and bounds are untouched. *)
Theorem patrol_velocity_follows_direction (walking_speed : Z) (enemy : Enemy) :
  let enemy' := EnemyMovementComponent.update walking_speed enemy in
  state (enemy_entity enemy') = WALKING
  /\ (direction (enemy_entity enemy') = LEFT
      /\ x_velocity (enemy_entity enemy') = - walking_speed
      \/ direction (enemy_entity enemy') = RIGHT
         /\ x_velocity (enemy_entity enemy') = walking_speed)
  /\ rect (enemy_entity enemy') = rect (enemy_entity enemy)
  /\ y_velocity (enemy_entity enemy') = y_velocity (enemy_entity enemy)
  /\ messages (enemy_entity enemy') = messages (enemy_entity enemy)
  /\ left_bound enemy' = left_bound enemy
  /\ right_bound enemy' = right_bound enemy.
Proof.
  cbv zeta. destruct enemy as [[vx vy d s r ms] lb rb].
  unfold EnemyMovementComponent.update, on_entity, get_direction. cbn.
  destruct d; cbn;
    match goal with |- context [if ?c then _ else _] => destruct c end;
    cbn; repeat split; auto.
Qed.

(** X9. The patrol turns exactly at its bounds: the direction changes in a
    tick if and only if the enemy faces LEFT with its x at or below the left
    bound, or faces RIGHT with its x at or beyond the right bound. *)
Theorem patrol_turns_at_bounds (walking_speed : Z) (enemy : Enemy) :
  let enemy' := EnemyMovementComponent.update walking_speed enemy in
  direction (enemy_entity enemy') = get_reverse (direction (enemy_entity enemy))
  <-> (direction (enemy_entity enemy) = LEFT
       /\ x (rect (enemy_entity enemy)) <= left_bound enemy)
      \/ (direction (enemy_entity enemy) = RIGHT
          /\ right_bound enemy <= x (rect (enemy_entity enemy))).
Proof.
  cbv zeta. destruct enemy as [[vx vy d s [rx ry rw rh] ms] lb rb].
  unfold EnemyMovementComponent.update, on_entity, get_direction, reverse_direction.
  cbn. destruct d; cbn.
  - destruct (Z.gtb_spec rx lb); cbn; split;
      try (intros [[_ H'] | [H' _]]; (discriminate H' || lia));
      try discriminate; auto.
  - destruct (Z.ltb_spec rx rb); cbn; split;
      try (intros [[H' _] | [_ H']]; (discriminate H' || lia));
      try discriminate; auto.
Qed.

(** ** What collision resolution leaves alone *)

Lemma fold_left_invariant {A B : Type} (P : A -> Prop) (f : A -> B -> A)
  (l : list B) (a : A) :
  P a -> (forall a' b, P a' -> P (f a' b)) -> P (fold_left f l a).
Proof.
  intros Ha Hf. revert a Ha.
  induction l as [| b l IH]; intros a Ha; cbn [fold_left]; [exact Ha |].
  apply IH, Hf, Ha.
Qed.

(** The entity but for the x of its rect, and but for the y of its rect
    and the fields a vertical pass writes. *)
Lemma x_collision_only_x (entity0 entity : Entity) (b : Block) :
  entity = on_rect (set_x (x (rect entity))) entity0 ->
  PhysicsComponent.x_collision entity b
  = on_rect (set_x (x (rect (PhysicsComponent.x_collision entity b)))) entity0.
Proof.
  intros H. unfold PhysicsComponent.x_collision, when.
  destruct (negb (is_spike b)); [| exact H].
  destruct (is_colliding_from_right entity b);
    match goal with |- context [if ?c then _ else _] => destruct c end;
    try exact H; rewrite H; destruct entity0 as [vx vy d s [rx ry rw rh] ms];
    reflexivity.
Qed.

Lemma enemy_x_collision_frame (enemy : Entity) (b : Block) :
  let enemy' := EnemyPhysicsComponent.x_collision enemy b in
  y (rect enemy') = y (rect enemy)
  /\ width (rect enemy') = width (rect enemy)
  /\ height (rect enemy') = height (rect enemy)
  /\ y_velocity enemy' = y_velocity enemy
  /\ state enemy' = state enemy
  /\ messages enemy' = messages enemy.
Proof.
  cbv zeta. unfold EnemyPhysicsComponent.x_collision, when.
  destruct (is_colliding_from_right enemy b);
    match goal with |- context [if ?c then _ else _] => destruct c end;
    repeat split; reflexivity.
Qed.

Lemma y_collision_frame (st : Entity * bool) (b : Block) :
  let st' := PhysicsComponent.y_collision st b in
  x (rect (fst st')) = x (rect (fst st))
  /\ width (rect (fst st')) = width (rect (fst st))
  /\ height (rect (fst st')) = height (rect (fst st))
  /\ x_velocity (fst st') = x_velocity (fst st)
  /\ direction (fst st') = direction (fst st)
  /\ messages (fst st') = messages (fst st).
Proof.
  cbv zeta. destruct st as [e f]. unfold PhysicsComponent.y_collision, when.
  destruct (is_colliding_from_below e b);
    match goal with |- context [if ?c then _ else _] => destruct c end;
    cbn [fst];
    try match goal with |- context [if ?c then _ else _] => destruct c end;
    repeat split; reflexivity.
Qed.

(** X10. Collision resolution is separated by axis.  The player's
    horizontal resolution changes nothing but the x of the rect; the
    enemy's keeps y, size, vertical velocity, state and messages; the
    vertical pass keeps x, size, horizontal velocity, direction and
    messages. *)
Theorem collision_resolution_is_axis_separated (entity : Entity) (map : GameMap) :
  PhysicsComponent.handle_x_collisions entity map
  = on_rect (set_x (x (rect (PhysicsComponent.handle_x_collisions entity map)))) entity
  /\ (let enemy' := EnemyPhysicsComponent.handle_x_collisions entity map in
      y (rect enemy') = y (rect entity)
      /\ width (rect enemy') = width (rect entity)
      /\ height (rect enemy') = height (rect entity)
      /\ y_velocity enemy' = y_velocity entity
      /\ state enemy' = state entity
      /\ messages enemy' = messages entity)
  /\ (let entity' := PhysicsComponent.handle_y_collisions entity map in
      x (rect entity') = x (rect entity)
      /\ width (rect entity') = width (rect entity)
      /\ height (rect entity') = height (rect entity)
      /\ x_velocity entity' = x_velocity entity
      /\ direction entity' = direction entity
      /\ messages entity' = messages entity).
Proof.
  split; [| split].
  - unfold PhysicsComponent.handle_x_collisions.
    apply (fold_left_invariant
             (fun e => e = on_rect (set_x (x (rect e))) entity)).
    + destruct entity as [vx vy d s [rx ry rw rh] ms]. reflexivity.
    + intros e b He. apply x_collision_only_x, He.
  - cbv zeta. unfold EnemyPhysicsComponent.handle_x_collisions.
    apply (fold_left_invariant
             (fun e => y (rect e) = y (rect entity)
                       /\ width (rect e) = width (rect entity)
                       /\ height (rect e) = height (rect entity)
                       /\ y_velocity e = y_velocity entity
                       /\ state e = state entity
                       /\ messages e = messages entity)).
    + repeat split; reflexivity.
    + intros e b (H1 & H2 & H3 & H4 & H5 & H6).
      destruct (enemy_x_collision_frame e b) as (F1 & F2 & F3 & F4 & F5 & F6).
      cbv zeta in *. repeat split; congruence.
  - cbv zeta.
    unfold PhysicsComponent.handle_y_collisions, PhysicsComponent.handle_y_collisions_flag.
    pose proof (fold_left_invariant
                  (fun st : Entity * bool =>
                     x (rect (fst st)) = x (rect entity)
                     /\ width (rect (fst st)) = width (rect entity)
                     /\ height (rect (fst st)) = height (rect entity)
                     /\ x_velocity (fst st) = x_velocity entity
                     /\ direction (fst st) = direction entity
                     /\ messages (fst st) = messages entity)
                  PhysicsComponent.y_collision
                  (spritecollide entity (collideable_terrain_group map))
                  (entity, true)) as H.
    destruct (fold_left _ _ _) as [e1 f]. cbn [fst] in *.
    assert (Hinv : x (rect e1) = x (rect entity)
                   /\ width (rect e1) = width (rect entity)
                   /\ height (rect e1) = height (rect entity)
                   /\ x_velocity e1 = x_velocity entity
                   /\ direction e1 = direction entity
                   /\ messages e1 = messages entity).
    { apply H; [repeat split; reflexivity |].
      intros st b (H1 & H2 & H3 & H4 & H5 & H6).
      destruct (y_collision_frame st b) as (F1 & F2 & F3 & F4 & F5 & F6).
      cbv zeta in *. repeat split; congruence. }
    unfold when.
    destruct (PhysicsComponent.feels_gravity e1), f; exact Hinv.
Qed.

(** The loop of the vertical pass either has not touched the entity or has
    left its vertical velocity at 0. *)
Lemma y_collision_velocity (entity0 : Entity) (st : Entity * bool) (b : Block) :
  (fst st = entity0 /\ snd st = true) \/ y_velocity (fst st) = 0 ->
  let st' := PhysicsComponent.y_collision st b in
  (fst st' = entity0 /\ snd st' = true) \/ y_velocity (fst st') = 0.
Proof.
  intros H. cbv zeta. destruct st as [e f].
  unfold PhysicsComponent.y_collision, when.
  destruct (is_colliding_from_below e b);
    match goal with |- context [if ?c then _ else _] => destruct c end;
    cbn [fst snd] in *; auto.
Qed.

(** X11. A vertical pass never speeds the entity up: the vertical velocity
    after it is the one before or 0, and it is 0 whenever the pass moved the
    rect or registered a landing. *)
Theorem vertical_pass_stops_or_keeps_velocity (entity : Entity) (map : GameMap) :
  let r := PhysicsComponent.handle_y_collisions_flag entity map in
  (y_velocity (fst r) = y_velocity entity \/ y_velocity (fst r) = 0)
  /\ (rect (fst r) <> rect entity -> y_velocity (fst r) = 0)
  /\ (snd r = false -> y_velocity (fst r) = 0).
Proof.
  cbv zeta. unfold PhysicsComponent.handle_y_collisions_flag.
  pose proof (fold_left_invariant
                (fun st : Entity * bool =>
                   (fst st = entity /\ snd st = true) \/ y_velocity (fst st) = 0)
                PhysicsComponent.y_collision
                (spritecollide entity (collideable_terrain_group map))
                (entity, true)) as H.
  destruct (fold_left _ _ _) as [e1 f]. cbn [fst snd] in *.
  assert (Hinv : (e1 = entity /\ f = true) \/ y_velocity e1 = 0).
  { apply H; [left; split; reflexivity |].
    intros st b Hst. apply (y_collision_velocity entity st b Hst). }
  unfold when.
  destruct (PhysicsComponent.feels_gravity e1), f; cbn [fst snd];
    change (y_velocity (set_state JUMPING e1)) with (y_velocity e1);
    change (rect (set_state JUMPING e1)) with (rect e1);
    destruct Hinv as [[-> Hf] | Hz];
    repeat split; auto; try discriminate; try congruence;
    intros Hne; contradiction.
Qed.

Lemma y_collision_keeps_ladder_state (st : Entity * bool) (b : Block) :
  state (fst st) = HANGING \/ state (fst st) = CLIMBING ->
  state (fst (PhysicsComponent.y_collision st b)) = state (fst st).
Proof.
  destruct st as [[vx vy d s r ms] f]. cbn [fst state]. intros Hs.
  unfold PhysicsComponent.y_collision, when.
  destruct (is_colliding_from_below _ b);
    match goal with |- context [if ?c then _ else _] => destruct c end;
    cbn [fst]; try reflexivity;
    destruct Hs as [-> | ->]; reflexivity.
Qed.

Lemma handle_y_collisions_keeps_ladder_state (entity : Entity) (map : GameMap) :
  state entity = HANGING \/ state entity = CLIMBING ->
  state (fst (PhysicsComponent.handle_y_collisions_flag entity map)) = state entity.
Proof.
  intros Hs. unfold PhysicsComponent.handle_y_collisions_flag.
  pose proof (fold_left_invariant
                (fun st : Entity * bool => state (fst st) = state entity)
                PhysicsComponent.y_collision
                (spritecollide entity (collideable_terrain_group map))
                (entity, true)) as H.
  destruct (fold_left _ _ _) as [e1 f]. cbn [fst] in *.
  assert (H1 : state e1 = state entity).
  { apply H; [reflexivity |]. intros st b Hst.
    rewrite y_collision_keeps_ladder_state; [exact Hst | rewrite Hst; exact Hs]. }
  assert (Hg : PhysicsComponent.feels_gravity e1 = false)
    by (apply feels_gravity_false; rewrite H1; exact Hs).
  rewrite Hg. exact H1.
Qed.

(** X12. The physics never takes an entity off a ladder: a tick of either
    component leaves a HANGING entity HANGING and a CLIMBING entity
    CLIMBING, whatever the map and the elapsed time. *)
Theorem physics_keeps_ladder_states
  (self_handle_x_collisions : Entity -> GameMap -> Entity)
  (delta_time : PrimFloat.float) (entity : Entity) (map : GameMap) :
  self_handle_x_collisions = PhysicsComponent.handle_x_collisions
  \/ self_handle_x_collisions = EnemyPhysicsComponent.handle_x_collisions ->
  state entity = HANGING \/ state entity = CLIMBING ->
  state (PhysicsComponent.update_with self_handle_x_collisions map delta_time entity)
  = state entity.
Proof.
  intros Hself Hs.
  assert (Hx : forall e, state (self_handle_x_collisions e map) = state e).
  { intros e. destruct Hself as [-> | ->];
      [apply state_handle_x_collisions | apply state_enemy_handle_x_collisions]. }
  assert (Hy : forall e, state e = state entity ->
                 state (fst (PhysicsComponent.handle_y_collisions_flag e map)) = state entity).
  { intros e He. rewrite handle_y_collisions_keeps_ladder_state;
      [exact He | rewrite He; exact Hs]. }
  assert (Hfull : forall st, state (fst st) = state entity ->
            state (fst (PhysicsComponent.full_step self_handle_x_collisions map st))
            = state entity).
  { intros [e passes] He. cbn [fst] in He. unfold PhysicsComponent.full_step.
    specialize (Hy (PhysicsComponent.move_y PhysicsComponent.DISCRETE_TIMESTEP
                      (PhysicsComponent.apply_gravity PhysicsComponent.DISCRETE_TIMESTEP e))).
    destruct (PhysicsComponent.handle_y_collisions_flag _ map) as [e2 f].
    cbn [fst] in *. rewrite Hx.
    change (state (PhysicsComponent.move_x PhysicsComponent.DISCRETE_TIMESTEP e2))
      with (state e2).
    apply Hy.
    change (state (PhysicsComponent.move_y PhysicsComponent.DISCRETE_TIMESTEP
                     (PhysicsComponent.apply_gravity PhysicsComponent.DISCRETE_TIMESTEP e)))
      with (state (PhysicsComponent.apply_gravity PhysicsComponent.DISCRETE_TIMESTEP e)).
    rewrite state_apply_gravity. exact He. }
  unfold PhysicsComponent.update_with, PhysicsComponent.update_passes,
    PhysicsComponent.integrate.
  assert (Hiter : state (fst (Nat.iter (Z.to_nat (PhysicsComponent.num_full_steps delta_time))
                                (PhysicsComponent.full_step self_handle_x_collisions map)
                                (entity, []))) = state entity).
  { induction (Z.to_nat (PhysicsComponent.num_full_steps delta_time)) as [| n IH];
      [reflexivity |].
    change (Nat.iter (S n) (PhysicsComponent.full_step self_handle_x_collisions map)
              (entity, []))
      with (PhysicsComponent.full_step self_handle_x_collisions map
              (Nat.iter n (PhysicsComponent.full_step self_handle_x_collisions map)
                 (entity, []))).
    apply Hfull, IH. }
  destruct (Nat.iter _ _ (entity, [])) as [e passes]. cbn [fst] in Hiter.
  unfold PhysicsComponent.remainder_step.
  set (t := PhysicsComponent.remainder_time delta_time).
  assert (Hg : state (PhysicsComponent.move_y t (PhysicsComponent.apply_gravity t e))
               = state entity).
  { change (state (PhysicsComponent.move_y t (PhysicsComponent.apply_gravity t e)))
      with (state (PhysicsComponent.apply_gravity t e)).
    rewrite state_apply_gravity. exact Hiter. }
  destruct (negb _).
  - specialize (Hy _ Hg).
    destruct (PhysicsComponent.handle_y_collisions_flag _ map) as [e2 f].
    cbn [fst] in *. rewrite state_handle_map_boundary_collisions, Hx. exact Hy.
  - cbn [fst]. rewrite state_handle_map_boundary_collisions, Hx. exact Hg.
Qed.

Lemma physics_keeps_ladder_states_witness :
  state (PhysicsComponent.update_with PhysicsComponent.handle_x_collisions
           (Scene.map_of [Scene.floor_at 100 100]) (Scene.frame_time 50)
           (set_y_velocity 180 (set_state CLIMBING (Scene.player_at 100 60))))
  = state (set_y_velocity 180 (set_state CLIMBING (Scene.player_at 100 60))).
Proof.
  apply (physics_keeps_ladder_states PhysicsComponent.handle_x_collisions (Scene.frame_time 50)
           (set_y_velocity 180 (set_state CLIMBING (Scene.player_at 100 60)))
           (Scene.map_of [Scene.floor_at 100 100])).
  - left. reflexivity.
  - right. reflexivity.
Defined.

(** ** Inside the map *)

Lemma width_handle_y_collisions_flag (entity : Entity) (map : GameMap) :
  width (rect (fst (PhysicsComponent.handle_y_collisions_flag entity map)))
  = width (rect entity).
Proof.
  unfold PhysicsComponent.handle_y_collisions_flag.
  pose proof (fold_left_invariant
                (fun st : Entity * bool => width (rect (fst st)) = width (rect entity))
                PhysicsComponent.y_collision
                (spritecollide entity (collideable_terrain_group map))
                (entity, true)) as H.
  destruct (fold_left _ _ _) as [e1 f]. cbn [fst] in *.
  assert (H1 : width (rect e1) = width (rect entity)).
  { apply H; [reflexivity |]. intros st b Hst.
    destruct (y_collision_frame st b) as (_ & Hw & _). cbv zeta in Hw. congruence. }
  unfold when. destruct (PhysicsComponent.feels_gravity e1), f; exact H1.
Qed.

Lemma width_handle_x_collisions (entity : Entity) (map : GameMap) :
  width (rect (PhysicsComponent.handle_x_collisions entity map)) = width (rect entity).
Proof.
  unfold PhysicsComponent.handle_x_collisions.
  apply (fold_left_invariant (fun e => width (rect e) = width (rect entity)));
    [reflexivity |].
  intros e b He. unfold PhysicsComponent.x_collision, when.
  destruct (negb (is_spike b)); [| exact He].
  destruct (is_colliding_from_right e b);
    match goal with |- context [if ?c then _ else _] => destruct c end; exact He.
Qed.

Lemma width_enemy_handle_x_collisions (enemy : Entity) (map : GameMap) :
  width (rect (EnemyPhysicsComponent.handle_x_collisions enemy map)) = width (rect enemy).
Proof.
  unfold EnemyPhysicsComponent.handle_x_collisions.
  apply (fold_left_invariant (fun e => width (rect e) = width (rect enemy)));
    [reflexivity |].
  intros e b He. destruct (enemy_x_collision_frame e b) as (_ & Hw & _).
  cbv zeta in Hw. congruence.
Qed.

Lemma width_full_step (handle_x : Entity -> GameMap -> Entity) (map : GameMap)
  (st : Entity * list bool) :
  (forall e, width (rect (handle_x e map)) = width (rect e)) ->
  width (rect (fst (PhysicsComponent.full_step handle_x map st)))
  = width (rect (fst st)).
Proof.
  intros Hx. destruct st as [e passes]. unfold PhysicsComponent.full_step.
  pose proof (width_handle_y_collisions_flag
                (PhysicsComponent.move_y PhysicsComponent.DISCRETE_TIMESTEP
                   (PhysicsComponent.apply_gravity PhysicsComponent.DISCRETE_TIMESTEP e))
                map) as Hy.
  destruct (PhysicsComponent.handle_y_collisions_flag _ map) as [e2 f].
  cbn [fst] in *. rewrite Hx.
  change (width (rect (PhysicsComponent.move_x PhysicsComponent.DISCRETE_TIMESTEP e2)))
    with (width (rect e2)).
  rewrite Hy. unfold PhysicsComponent.apply_gravity, when.
  destruct (PhysicsComponent.feels_gravity e); reflexivity.
Qed.

Lemma width_integrate (handle_x : Entity -> GameMap -> Entity) (map : GameMap)
  (delta_time : PrimFloat.float) (entity : Entity) :
  (forall e, width (rect (handle_x e map)) = width (rect e)) ->
  width (rect (fst (PhysicsComponent.integrate handle_x map delta_time entity)))
  = width (rect entity).
Proof.
  intros Hx. unfold PhysicsComponent.integrate.
  assert (Hiter : width (rect (fst (Nat.iter
                     (Z.to_nat (PhysicsComponent.num_full_steps delta_time))
                     (PhysicsComponent.full_step handle_x map) (entity, []))))
                  = width (rect entity)).
  { induction (Z.to_nat (PhysicsComponent.num_full_steps delta_time)) as [| n IH];
      [reflexivity |].
    change (Nat.iter (S n) (PhysicsComponent.full_step handle_x map) (entity, []))
      with (PhysicsComponent.full_step handle_x map
              (Nat.iter n (PhysicsComponent.full_step handle_x map) (entity, []))).
    rewrite width_full_step by exact Hx. exact IH. }
  destruct (Nat.iter _ _ (entity, [])) as [e passes]. cbn [fst] in Hiter.
  unfold PhysicsComponent.remainder_step.
  set (t := PhysicsComponent.remainder_time delta_time).
  assert (Hg : width (rect (PhysicsComponent.move_y t (PhysicsComponent.apply_gravity t e)))
               = width (rect entity)).
  { rewrite <- Hiter. unfold PhysicsComponent.apply_gravity, when.
    destruct (PhysicsComponent.feels_gravity e); reflexivity. }
  destruct (negb _).
  - pose proof (width_handle_y_collisions_flag
                  (PhysicsComponent.move_y t (PhysicsComponent.apply_gravity t e)) map) as Hy.
    destruct (PhysicsComponent.handle_y_collisions_flag _ map) as [e2 f].
    cbn [fst] in *. rewrite Hx.
    change (width (rect (PhysicsComponent.move_x t e2))) with (width (rect e2)).
    congruence.
  - cbn [fst]. rewrite Hx. exact Hg.
Qed.

Lemma boundary_inside (entity : Entity) (map : GameMap) :
  width (rect entity) <= width (map_rect map) ->
  let entity' := PhysicsComponent.handle_map_boundary_collisions entity map in
  0 <= left (rect entity')
  /\ right (rect entity') <= width (map_rect map)
  /\ 0 <= top (rect entity').
Proof.
  intros Hw. cbv zeta. unfold PhysicsComponent.handle_map_boundary_collisions, when.
  destruct entity as [vx vy d s [rx ry rw rh] ms].
  unfold rect, Entity_sprite, on_rect, set_rect, set_top, set_left, set_right,
    set_x, set_y, left, right, top in *. cbn in *.
  destruct (Z.ltb_spec ry 0); cbn;
    destruct (Z.ltb_spec rx 0); cbn; try lia;
    destruct (Z.gtb_spec (rx + rw) (width (map_rect map))); cbn; lia.
Qed.

Lemma boundary_identity_inside (entity : Entity) (map : GameMap) :
  0 <= left (rect entity) ->
  right (rect entity) <= width (map_rect map) ->
  0 <= top (rect entity) ->
  PhysicsComponent.handle_map_boundary_collisions entity map = entity.
Proof.
  intros Hl Hr Ht. unfold PhysicsComponent.handle_map_boundary_collisions, when.
  destruct (Z.ltb_spec (top (rect entity)) 0); [lia |].
  destruct (Z.ltb_spec (left (rect entity)) 0); [lia |].
  destruct (Z.gtb_spec (right (rect entity)) (width (map_rect map))); [lia |].
  reflexivity.
Qed.

(** X13. After a tick of either component an entity no wider than the map
    lies inside the map horizontally and below its top edge: its left edge
    is at least 0, its right edge at most the map width, its top at least
    0.  (Nothing bounds the bottom.) *)
Theorem tick_ends_inside_the_map
  (self_handle_x_collisions : Entity -> GameMap -> Entity)
  (delta_time : PrimFloat.float) (entity : Entity) (map : GameMap) :
  self_handle_x_collisions = PhysicsComponent.handle_x_collisions
  \/ self_handle_x_collisions = EnemyPhysicsComponent.handle_x_collisions ->
  width (rect entity) <= width (map_rect map) ->
  let entity' :=
    PhysicsComponent.update_with self_handle_x_collisions map delta_time entity in
  0 <= left (rect entity')
  /\ right (rect entity') <= width (map_rect map)
  /\ 0 <= top (rect entity').
Proof.
  intros Hself Hw. cbv zeta.
  unfold PhysicsComponent.update_with, PhysicsComponent.update_passes.
  assert (Hx : forall e, width (rect (self_handle_x_collisions e map)) = width (rect e)).
  { intros e. destruct Hself as [-> | ->];
      [apply width_handle_x_collisions | apply width_enemy_handle_x_collisions]. }
  pose proof (width_integrate self_handle_x_collisions map delta_time entity Hx) as Hint.
  destruct (PhysicsComponent.integrate _ map delta_time entity) as [e passes].
  cbn [fst] in *. apply boundary_inside. lia.
Qed.

Lemma tick_ends_inside_the_map_witness :
  let player := set_x_velocity (-180) (set_state WALKING (Scene.player_at 1 70)) in
  let player' := PhysicsComponent.update_with PhysicsComponent.handle_x_collisions
                   Scene.open_map (Scene.frame_time 50) player in
  0 <= left (rect player')
  /\ right (rect player') <= width (map_rect Scene.open_map)
  /\ 0 <= top (rect player').
Proof.
  cbv zeta.
  apply (tick_ends_inside_the_map PhysicsComponent.handle_x_collisions (Scene.frame_time 50)
           (set_x_velocity (-180) (set_state WALKING (Scene.player_at 1 70)))
           Scene.open_map).
  - left. reflexivity.
  - vm_compute. intros H. discriminate H.
Defined.

(** X14. Boundary resolution is idempotent on an entity no wider than the
    map, and leaves an entity that is already inside untouched. *)
Theorem boundary_resolution_idempotent (entity : Entity) (map : GameMap) :
  width (rect entity) <= width (map_rect map) ->
  PhysicsComponent.handle_map_boundary_collisions
    (PhysicsComponent.handle_map_boundary_collisions entity map) map
  = PhysicsComponent.handle_map_boundary_collisions entity map.
Proof.
  intros Hw. destruct (boundary_inside entity map Hw) as (Hl & Hr & Ht).
  cbv zeta in Hl, Hr, Ht. apply boundary_identity_inside; assumption.
Qed.

Lemma boundary_resolution_idempotent_witness :
  PhysicsComponent.handle_map_boundary_collisions
    (PhysicsComponent.handle_map_boundary_collisions
       (Scene.player_at 990 (-4)) Scene.open_map) Scene.open_map
  = PhysicsComponent.handle_map_boundary_collisions
      (Scene.player_at 990 (-4)) Scene.open_map.
Proof.
  apply (boundary_resolution_idempotent (Scene.player_at 990 (-4)) Scene.open_map).
  vm_compute. intros H. discriminate H.
Defined.

(** The width condition is needed: an entity wider than the map is pushed
    to the left edge, then to the right edge, and back. *)
Example boundary_resolution_oscillates_when_too_wide :
  let entity := Scene.player_at (-5) 10 in
  let once := PhysicsComponent.handle_map_boundary_collisions entity Scene.narrow_map in
  let twice := PhysicsComponent.handle_map_boundary_collisions once Scene.narrow_map in
  let thrice := PhysicsComponent.handle_map_boundary_collisions twice Scene.narrow_map in
  x (rect once) = 0 /\ x (rect twice) = -10 /\ x (rect thrice) = 0.
Proof. cbv zeta. vm_compute. repeat split. Qed.

(** ** Vertical collision resolution: the ceiling *)

Lemma y_collision_bump (entity : Entity) (isJumping : bool) (c : Block) :
  0 <= height (rect entity) ->
  is_colliding_from_below entity c = true ->
  let st' := PhysicsComponent.y_collision (entity, isJumping) c in
  top (rect (fst st')) = bottom (rect c)
  /\ height (rect (fst st')) = height (rect entity)
  /\ y_velocity (fst st') = 0
  /\ snd st' = isJumping
  /\ state (fst st') = state entity.
Proof.
  intros Hh Hb. cbv zeta. unfold PhysicsComponent.y_collision, when. rewrite Hb.
  assert (Ha : is_colliding_from_above
                 ((on_rect (set_top (bottom (rect c))) >> set_y_velocity 0) entity) c
               = false).
  { destruct entity as [vx vy d s [rx ry rw rh] ms].
    unfold is_colliding_from_above, on_rect, set_rect, set_top, set_y, rect,
      Entity_sprite, Block_sprite, bottom, top in *. cbn in *. lia. }
  rewrite Ha. cbn [fst snd]. repeat split.
Qed.

Lemma y_collision_under_ceiling (entity : Entity) (isJumping : bool) (c : Block) :
  0 <= height (rect entity) ->
  top (rect entity) = bottom (rect c) ->
  PhysicsComponent.y_collision (entity, isJumping) c = (entity, isJumping).
Proof.
  intros Hh Hlevel. apply y_collision_no_contact.
  - unfold is_colliding_from_below, bottom, top in *. lia.
  - unfold is_colliding_from_above, bottom, top in *. lia.
Qed.

Lemma fold_y_collision_bumped (entity0 : Entity) (level : Z) (blocks : list Block)
  (st : Entity * bool) :
  0 <= height (rect entity0) ->
  (forall c, In c blocks -> bottom (rect c) = level) ->
  bumped entity0 level st ->
  bumped entity0 level (fold_left PhysicsComponent.y_collision blocks st).
Proof.
  intros Hh. revert st.
  induction blocks as [| c blocks IH]; intros st Hlevel Hst; cbn [fold_left].
  - exact Hst.
  - apply IH; [intros c' Hc'; apply Hlevel; right; exact Hc' |].
    destruct st as [e f]. rewrite y_collision_under_ceiling; [exact Hst | |].
    + destruct Hst as (_ & Hheight & _). cbn [fst] in Hheight. lia.
    + destruct Hst as (Htop & _). cbn [fst] in Htop.
      rewrite Htop. symmetry. apply Hlevel. left. reflexivity.
Qed.

Lemma fold_y_collision_ceiling (entity0 : Entity) (level : Z) (blocks : list Block) :
  0 <= height (rect entity0) ->
  (forall c, In c blocks ->
     bottom (rect c) = level /\ is_colliding_from_above entity0 c = false) ->
  let st := fold_left PhysicsComponent.y_collision blocks (entity0, true) in
  (untouched entity0 st
   /\ forall c, In c blocks -> is_colliding_from_below entity0 c = false)
  \/ bumped entity0 level st.
Proof.
  intros Hh. cbv zeta.
  induction blocks as [| c blocks IH]; intros Hblocks; cbn [fold_left].
  - left. split; [split; reflexivity | intros c []].
  - destruct (Hblocks c (or_introl eq_refl)) as [Hlevel Habove].
    assert (Hrest : forall c', In c' blocks ->
              bottom (rect c') = level /\ is_colliding_from_above entity0 c' = false)
      by (intros c' Hc'; apply Hblocks; right; exact Hc').
    destruct (is_colliding_from_below entity0 c) eqn:Hbelow.
    + right. apply fold_y_collision_bumped;
        [exact Hh | intros c' Hc'; apply Hrest, Hc' |].
      destruct (y_collision_bump entity0 true c Hh Hbelow) as (B1 & B2 & B3 & B4 & B5).
      cbv zeta in *. unfold bumped. rewrite <- Hlevel. repeat split; assumption.
    + rewrite y_collision_no_contact by assumption.
      destruct (IH Hrest) as [[Hun Hnone] | Hdone]; [left | right; exact Hdone].
      split; [exact Hun |]. intros c' [<- | Hc']; [exact Hbelow | apply Hnone, Hc'].
Qed.

(** X15. The ceiling.  Let an entity of non-negative height overlap a
    collideable block with its top edge strictly between the block's top
    and bottom edges, and let every collideable block it overlaps have that
    same bottom edge and not hold the entity's bottom edge strictly inside
    it.  Then the vertical pass puts the entity's top on the block's bottom
    with vertical velocity 0, registers no landing, and leaves the entity
    JUMPING unless it hangs or climbs. *)
Theorem head_bump_on_level_ceiling (entity : Entity) (map : GameMap) (b : Block) :
  0 <= height (rect entity) ->
  In b (collideable_terrain_group map) ->
  colliderect (rect entity) (rect b) = true ->
  is_colliding_from_below entity b = true ->
  (forall c, In c (collideable_terrain_group map) ->
     colliderect (rect entity) (rect c) = true ->
     bottom (rect c) = bottom (rect b) /\ is_colliding_from_above entity c = false) ->
  let r := PhysicsComponent.handle_y_collisions_flag entity map in
  top (rect (fst r)) = bottom (rect b)
  /\ y_velocity (fst r) = 0
  /\ snd r = true
  /\ (state entity <> HANGING -> state entity <> CLIMBING -> state (fst r) = JUMPING).
Proof.
  intros Hh Hin Hcol Hbelow Hlevel. cbv zeta.
  unfold PhysicsComponent.handle_y_collisions_flag.
  pose proof (fold_y_collision_ceiling entity (bottom (rect b))
                (spritecollide entity (collideable_terrain_group map)) Hh) as Hfold.
  cbv zeta in Hfold.
  assert (Hmem : In b (spritecollide entity (collideable_terrain_group map)))
    by (apply filter_In; split; assumption).
  destruct Hfold as [[_ Hnone] | Hbump].
  - intros c Hc. apply filter_In in Hc as [Hc1 Hc2]. apply Hlevel; assumption.
  - rewrite (Hnone b Hmem) in Hbelow. discriminate.
  - destruct (fold_left _ _ _) as [e1 f].
    destruct Hbump as (Htop & _ & Hvy & Hf & Hstate). cbn [fst snd] in *. subst f.
    unfold when, PhysicsComponent.feels_gravity, state_is, get_state. rewrite Hstate.
    destruct (state entity) eqn:Hs; cbn; repeat split; auto; congruence.
Qed.

Lemma head_bump_on_level_ceiling_witness :
  let player := set_y_velocity (-300) (set_state JUMPING (Scene.player_at 110 120)) in
  let map := Scene.map_of [Scene.floor_at 100 100; Scene.floor_at 125 100] in
  top (rect (fst (PhysicsComponent.handle_y_collisions_flag player map)))
  = bottom (rect (Scene.floor_at 100 100))
  /\ y_velocity (fst (PhysicsComponent.handle_y_collisions_flag player map)) = 0.
Proof.
  cbv zeta.
  destruct (head_bump_on_level_ceiling
              (set_y_velocity (-300) (set_state JUMPING (Scene.player_at 110 120)))
              (Scene.map_of [Scene.floor_at 100 100; Scene.floor_at 125 100])
              (Scene.floor_at 100 100)) as (Htop & Hvy & _).
  - vm_compute. intros Hgt. discriminate Hgt.
  - left. reflexivity.
  - vm_compute. reflexivity.
  - vm_compute. reflexivity.
  - intros c [<- | [<- | []]] _; vm_compute; split; reflexivity.
  - split; [exact Htop | exact Hvy].
Defined.

(** ** Free fall: the velocity *)

(** The gravity of a full sub-step: [int(60 * (1 / 60) * 60)] is 60 in
    double precision. *)
Lemma gravity_of_full_step :
  PhysicsComponent.gravity_gain PhysicsComponent.DISCRETE_TIMESTEP = 60.
Proof. vm_compute. reflexivity. Qed.

Lemma feels_gravity_true (entity : Entity) :
  state entity <> HANGING -> state entity <> CLIMBING ->
  PhysicsComponent.feels_gravity entity = true.
Proof.
  unfold PhysicsComponent.feels_gravity, state_is, get_state. intros Hh Hc.
  rewrite !bool_decide_eq_false_2 by assumption. reflexivity.
Qed.

Lemma y_velocity_handle_map_boundary_collisions (entity : Entity) (map : GameMap) :
  y_velocity (PhysicsComponent.handle_map_boundary_collisions entity map)
  = y_velocity entity.
Proof.
  unfold PhysicsComponent.handle_map_boundary_collisions, when.
  destruct (top (rect entity) <? 0);
    repeat match goal with |- context [if ?c then _ else _] => destruct c end;
    reflexivity.
Qed.

Section FreeFall.

Variable map : GameMap.
Hypothesis no_terrain : collideable_terrain_group map = [].

Let full_step := PhysicsComponent.full_step PhysicsComponent.handle_x_collisions map.
Let remainder_step := PhysicsComponent.remainder_step PhysicsComponent.handle_x_collisions map.

Lemma full_step_free_fall (entity : Entity) (passes : list bool) :
  PhysicsComponent.feels_gravity entity = true ->
  let entity' := fst (full_step (entity, passes)) in
  PhysicsComponent.feels_gravity entity' = true
  /\ y_velocity entity' = y_velocity entity + 60.
Proof using no_terrain.
  intros Hg. cbv zeta. unfold full_step, PhysicsComponent.full_step.
  rewrite handle_y_collisions_flag_free by exact no_terrain.
  rewrite handle_x_collisions_free by exact no_terrain.
  unfold PhysicsComponent.apply_gravity, when. rewrite Hg.
  rewrite gravity_of_full_step.
  change (PhysicsComponent.feels_gravity
            (PhysicsComponent.move_y PhysicsComponent.DISCRETE_TIMESTEP
               (set_y_velocity (y_velocity entity + 60) entity)))
    with (PhysicsComponent.feels_gravity entity).
  rewrite Hg. split; reflexivity.
Qed.

Lemma full_steps_free_fall (n : nat) (entity : Entity) :
  PhysicsComponent.feels_gravity entity = true ->
  let entity' := fst (Nat.iter n full_step (entity, [])) in
  PhysicsComponent.feels_gravity entity' = true
  /\ y_velocity entity' = y_velocity entity + 60 * Z.of_nat n.
Proof using no_terrain.
  intros Hg. cbv zeta. induction n as [| n [IHg IHv]].
  - split; [exact Hg | cbn; lia].
  - change (Nat.iter (S n) full_step (entity, []))
      with (full_step (Nat.iter n full_step (entity, []))).
    destruct (Nat.iter n full_step (entity, [])) as [e passes].
    cbn [fst] in IHg, IHv.
    destruct (full_step_free_fall e passes IHg) as [Hg' Hv]. cbv zeta in Hg', Hv.
    split; [exact Hg' |]. etransitivity; [exact Hv |]. lia.
Qed.

Lemma remainder_step_free_fall (t : PrimFloat.float) (entity : Entity) (passes : list bool) :
  PhysicsComponent.feels_gravity entity = true ->
  y_velocity (fst (remainder_step t (entity, passes)))
  = y_velocity entity + PhysicsComponent.gravity_gain t.
Proof using no_terrain.
  intros Hg. unfold remainder_step, PhysicsComponent.remainder_step.
  unfold PhysicsComponent.apply_gravity, when. rewrite Hg.
  destruct (negb _).
  - rewrite handle_y_collisions_flag_free by exact no_terrain.
    rewrite handle_x_collisions_free by exact no_terrain.
    match goal with |- context [if ?c then _ else _] => destruct c end; reflexivity.
  - rewrite handle_x_collisions_free by exact no_terrain. reflexivity.
Qed.

End FreeFall.

(** X16. In a map without collideable terrain, a tick raises the vertical
    velocity of an entity that is neither HANGING nor CLIMBING by exactly
    60 for each full sub-step it runs and by [int(60 * remainder * 60)]
    for the remainder sub-step; the same time processed as one step raises
    it by [int(60 * delta_time * 60)]. *)
Theorem free_fall_velocity (delta_time : PrimFloat.float) (entity : Entity) (map : GameMap) :
  collideable_terrain_group map = [] ->
  state entity <> HANGING ->
  state entity <> CLIMBING ->
  let n := Z.max 0 (PhysicsComponent.num_full_steps delta_time) in
  let r := PhysicsComponent.remainder_time delta_time in
  y_velocity (PhysicsComponent.update delta_time entity map)
  = y_velocity entity + 60 * n + PhysicsComponent.gravity_gain r
  /\ y_velocity (PhysicsComponent.single_step PhysicsComponent.handle_x_collisions
                   map delta_time entity)
     = y_velocity entity + PhysicsComponent.gravity_gain delta_time.
Proof.
  intros Hfree Hh Hc. cbv zeta.
  pose proof (feels_gravity_true entity Hh Hc) as Hg. split.
  - unfold PhysicsComponent.update, PhysicsComponent.update_with,
      PhysicsComponent.update_passes, PhysicsComponent.integrate.
    pose proof (full_steps_free_fall map Hfree
                  (Z.to_nat (PhysicsComponent.num_full_steps delta_time)) entity Hg)
      as Hiter.
    cbv zeta in Hiter. rewrite full_steps_run in Hiter.
    destruct (Nat.iter _ _ (entity, [])) as [e passes]. cbn [fst] in Hiter.
    destruct Hiter as [Hg' Hv].
    pose proof (remainder_step_free_fall map Hfree
                  (PhysicsComponent.remainder_time delta_time) e passes Hg') as Hrem.
    destruct (PhysicsComponent.remainder_step _ map _ (e, passes)) as [e2 passes2].
    cbn [fst] in *. rewrite y_velocity_handle_map_boundary_collisions, Hrem, Hv.
    reflexivity.
  - unfold PhysicsComponent.single_step.
    apply (remainder_step_free_fall map Hfree delta_time entity [] Hg).
Qed.

Lemma free_fall_velocity_witness :
  y_velocity (PhysicsComponent.update (Scene.frame_time 45)
                (set_state JUMPING (Scene.player_at 100 100)) Scene.open_map)
  = 60 * 2 + 42.
Proof.
  destruct (free_fall_velocity (Scene.frame_time 45)
              (set_state JUMPING (Scene.player_at 100 100)) Scene.open_map)
    as [Hv _].
  - reflexivity.
  - discriminate.
  - discriminate.
  - cbv zeta in Hv. rewrite Hv. vm_compute. reflexivity.
Defined.

(** The gains are not the truncation of 3600 times the frame time: a
    frame of 15 ms gains 53, and a frame of 150 ms, with its nine full
    steps and a remainder of almost a step, gains 599. *)
Example free_fall_velocity_in_doubles :
  let player := set_state JUMPING (Scene.player_at 100 100) in
  y_velocity (PhysicsComponent.update (Scene.frame_time 15) player Scene.open_map) = 53
  /\ y_velocity (PhysicsComponent.update (Scene.frame_time 150) player Scene.open_map) = 599.
Proof. cbv zeta. vm_compute. repeat split. Qed.

(** ** The enemy at a wall *)

Lemma x_velocity_enemy_x_collision (enemy : Entity) (b : Block) :
  x_velocity (EnemyPhysicsComponent.x_collision enemy b) = - x_velocity enemy.
Proof.
  unfold EnemyPhysicsComponent.x_collision, when.
  destruct (is_colliding_from_right enemy b);
    match goal with |- context [if ?c then _ else _] => destruct c end; reflexivity.
Qed.

Lemma x_velocity_fold_enemy_x_collision (blocks : list Block) (enemy : Entity) :
  x_velocity (fold_left EnemyPhysicsComponent.x_collision blocks enemy)
  = if Nat.even (length blocks) then x_velocity enemy else - x_velocity enemy.
Proof.
  revert enemy. induction blocks as [| b blocks IH]; intros enemy; [reflexivity |].
  cbn [fold_left length]. rewrite IH, x_velocity_enemy_x_collision.
  rewrite Nat.even_succ, <- Nat.negb_even.
  destruct (Nat.even (length blocks)); cbn; lia.
Qed.

(** X17. The enemy's horizontal resolution reverses the horizontal
    velocity once for every collideable block the enemy overlaps: the
    velocity ends reversed when that number is odd and as it was when the
    number is even; its magnitude never changes. *)
Theorem enemy_velocity_reversed_per_block (enemy : Entity) (map : GameMap) :
  let overlapped := spritecollide enemy (collideable_terrain_group map) in
  let enemy' := EnemyPhysicsComponent.handle_x_collisions enemy map in
  x_velocity enemy'
    = (if Nat.even (length overlapped) then x_velocity enemy else - x_velocity enemy)
  /\ Z.abs (x_velocity enemy') = Z.abs (x_velocity enemy).
Proof.
  cbv zeta. unfold EnemyPhysicsComponent.handle_x_collisions.
  rewrite x_velocity_fold_enemy_x_collision.
  destruct (Nat.even _); split; try reflexivity; lia.
Qed.

(** An enemy walking left into a wall two tiles high overlaps both tiles:
    it is turned to face RIGHT and its velocity, reversed twice, still
    points left. *)
Example enemy_at_a_two_tile_wall :
  let enemy := Scene.pink_guy_at 120 84 in
  let wall := Scene.map_of [Scene.floor_at 100 75; Scene.floor_at 100 100] in
  let enemy' := EnemyPhysicsComponent.handle_x_collisions enemy wall in
  length (spritecollide enemy (collideable_terrain_group wall)) = 2%nat
  /\ x (rect enemy') = 125
  /\ direction enemy' = RIGHT
  /\ x_velocity enemy' = -90.
Proof. cbv zeta. vm_compute. repeat split. Qed.

(** ** Blocks built from the table *)

Lemma textures_have_positive_sizes (name : string) (t : TerrainType) :
  TextureSet.textures !! name = Some t ->
  0 < py_int (block_width t * inject_Z BLOCK_SIZE)
  /\ 0 < py_int (block_height t * inject_Z BLOCK_SIZE).
Proof.
  unfold TextureSet.textures. intros H.
  apply elem_of_list_to_map_2 in H.
  repeat (apply elem_of_cons in H as [H | H];
          [injection H as -> ->; vm_compute; split; reflexivity |]).
  apply elem_of_nil in H. contradiction.
Qed.

(** X18. Every block built from a code of the table has a box of positive
    width and height wherever it is placed, so its rect is legal and can
    collide; a plain block is not hazardous and a spike block is. *)
Theorem table_blocks_have_positive_size (code : string) (t : TerrainType) (bx by_ : Z) :
  TextureSet.get_texture_from_code code = Ok t ->
  0 < width (rect (Block_init t bx by_))
  /\ 0 < height (rect (Block_init t bx by_))
  /\ legal (rect (Block_init t bx by_))
  /\ is_spike (Block_init t bx by_) = false
  /\ rect (SpikeBlock.init t bx by_) = rect (Block_init t bx by_)
  /\ is_spike (SpikeBlock.init t bx by_) = true.
Proof.
  unfold TextureSet.get_texture_from_code, getitem. intros H.
  destruct (TextureSet.code_to_texture_dictionary !! code) as [name |];
    [| discriminate H].
  destruct (TextureSet.textures !! name) as [t' |] eqn:Ht; [| discriminate H].
  injection H as ->.
  destruct (textures_have_positive_sizes name t Ht) as [Hw Hh].
  unfold legal, Block_init, SpikeBlock.init, rect, Block_sprite. cbn.
  repeat split; try assumption; lia.
Qed.

Lemma table_blocks_have_positive_size_witness :
  0 < width (rect (Block_init (Scene.terrain "SP") 100 100))
  /\ 0 < height (rect (Block_init (Scene.terrain "SP") 100 100)).
Proof.
  destruct (table_blocks_have_positive_size "SP" (Scene.terrain "SP") 100 100)
    as (Hw & Hh & _).
  - vm_compute. reflexivity.
  - split; [exact Hw | exact Hh].
Defined.

(** ** The falling block *)

Lemma settle_cases (self : FallingBlock.t) (c : Block) :
  FallingBlock.settle self c = self
  \/ (FallingBlock.fallen (FallingBlock.settle self c) = true
      /\ bottom (rect (FallingBlock.settle self c)) = top (rect c)).
Proof.
  unfold FallingBlock.settle.
  match goal with |- context [if ?b then _ else _] => destruct b end;
    [right | left; reflexivity].
  split; [reflexivity |].
  unfold rect at 1, FallingBlock.sprite, FallingBlock.set_fallen,
    FallingBlock.on_block_rect. cbn. apply set_bottom_bottom.
Qed.

Lemma settle_frame (self : FallingBlock.t) (c : Block) :
  let self' := FallingBlock.settle self c in
  x (rect self') = x (rect self)
  /\ width (rect self') = width (rect self)
  /\ height (rect self') = height (rect self)
  /\ FallingBlock.vel self' = FallingBlock.vel self
  /\ (FallingBlock.fallen self = true -> FallingBlock.fallen self' = true).
Proof.
  cbv zeta. unfold FallingBlock.settle.
  match goal with |- context [if ?b then _ else _] => destruct b end;
    repeat split; auto.
Qed.

Lemma fold_settle_frame (blocks : list Block) (self : FallingBlock.t) :
  let self' := fold_left FallingBlock.settle blocks self in
  x (rect self') = x (rect self)
  /\ width (rect self') = width (rect self)
  /\ height (rect self') = height (rect self)
  /\ FallingBlock.vel self' = FallingBlock.vel self
  /\ (FallingBlock.fallen self = true -> FallingBlock.fallen self' = true).
Proof.
  cbv zeta.
  apply (fold_left_invariant
           (fun s => x (rect s) = x (rect self)
                     /\ width (rect s) = width (rect self)
                     /\ height (rect s) = height (rect self)
                     /\ FallingBlock.vel s = FallingBlock.vel self
                     /\ (FallingBlock.fallen self = true -> FallingBlock.fallen s = true))).
  - repeat split; auto.
  - intros s c (H1 & H2 & H3 & H4 & H5).
    destruct (settle_frame s c) as (F1 & F2 & F3 & F4 & F5). cbv zeta in *.
    repeat split; try congruence. auto.
Qed.

(** The loop over the terrain either leaves the block as it found it, or
    leaves it fallen with its bottom on the top of a sprite of the list. *)
Lemma fold_settle_cases (blocks : list Block) (self : FallingBlock.t) :
  let self' := fold_left FallingBlock.settle blocks self in
  self' = self
  \/ (FallingBlock.fallen self' = true
      /\ exists c, In c blocks /\ bottom (rect self') = top (rect c)).
Proof.
  cbv zeta. revert self.
  induction blocks as [| c blocks IH]; intros self; cbn [fold_left]; [left; reflexivity |].
  destruct (IH (FallingBlock.settle self c)) as [Heq | (Hf & c' & Hin & Hb)].
  - rewrite Heq. destruct (settle_cases self c) as [Hsame | [Hf Hb]].
    + left. exact Hsame.
    + right. split; [exact Hf |]. exists c. split; [left; reflexivity | exact Hb].
  - right. split; [exact Hf |]. exists c'. split; [right; exact Hin | exact Hb].
Qed.

(** X19. A fallen block stays fallen and carries nobody: when [fallen] is
    set, [FallingBlock.update] leaves the player untouched and the flag
    set; and in every case the update keeps the block's x, size and speed. *)
Theorem fallen_block_is_permanent
  (self : FallingBlock.t) (player : Entity) (terrain_group : list Block) :
  let after := FallingBlock.update self player terrain_group in
  (FallingBlock.fallen self = true ->
   FallingBlock.fallen (fst after) = true /\ snd after = player)
  /\ x (rect (fst after)) = x (rect self)
  /\ width (rect (fst after)) = width (rect self)
  /\ height (rect (fst after)) = height (rect self)
  /\ FallingBlock.vel (fst after) = FallingBlock.vel self.
Proof.
  cbv zeta. unfold FallingBlock.update.
  match goal with |- context [if ?b then _ else _] => destruct b eqn:Hride end.
  - pose proof (fold_settle_frame
                  (spritecollide
                     (FallingBlock.on_block_rect
                        (fun r => set_y (y r + FallingBlock.vel self) r) self)
                     terrain_group)
                  (FallingBlock.on_block_rect
                     (fun r => set_y (y r + FallingBlock.vel self) r) self))
      as (F1 & F2 & F3 & F4 & F5).
    cbv zeta in *. cbn [fst snd]. split.
    + intros Hf. rewrite Hf in Hride. rewrite andb_false_r in Hride. discriminate Hride.
    + repeat split; assumption.
  - pose proof (fold_settle_frame (spritecollide self terrain_group) self)
      as (F1 & F2 & F3 & F4 & F5).
    cbv zeta in *. cbn [fst snd]. repeat split; auto.
Qed.

(** X20. Riding a falling block: when the player's feet exactly touch the
    top of a block that has not fallen, with a lateral edge strictly inside
    it, the update puts the player's bottom [vel] below the block's old top
    and keeps the player's x.  If the block does not settle in this update
    it has moved down by [vel] and the player stands on it; if it settles,
    it is fallen with its bottom on the top of a terrain sprite. *)
Theorem falling_block_carries_player
  (self : FallingBlock.t) (player : Entity) (terrain_group : list Block) :
  top (rect self) = bottom (rect player) ->
  FallingBlock.fallen self = false ->
  lateral_edge_inside (rect self) (rect player) = true ->
  let after := FallingBlock.update self player terrain_group in
  bottom (rect (snd after)) = top (rect self) + FallingBlock.vel self
  /\ x (rect (snd after)) = x (rect player)
  /\ (FallingBlock.fallen (fst after) = false ->
      y (rect (fst after)) = y (rect self) + FallingBlock.vel self
      /\ bottom (rect (snd after)) = top (rect (fst after)))
  /\ (FallingBlock.fallen (fst after) = true ->
      exists c, In c terrain_group /\ bottom (rect (fst after)) = top (rect c)).
Proof.
  intros Htouch Hnot Hedge. cbv zeta. unfold FallingBlock.update.
  apply Z.eqb_eq in Htouch. rewrite Htouch, Hnot, Hedge. cbn [negb andb fst snd].
  set (moved := FallingBlock.on_block_rect
                  (fun r => set_y (y r + FallingBlock.vel self) r) self).
  assert (Hbottom : bottom (rect (on_rect (set_bottom (top (rect moved))) player))
                    = top (rect moved)) by apply set_bottom_bottom.
  assert (Htop : top (rect moved) = top (rect self) + FallingBlock.vel self)
    by reflexivity.
  assert (Hfm : FallingBlock.fallen moved = false) by exact Hnot.
  destruct (fold_settle_cases (spritecollide moved terrain_group) moved)
    as [Heq | (Hf & c & Hin & Hb)].
  - cbv zeta in Heq. rewrite Heq.
    split; [congruence |]. split; [reflexivity |]. split.
    + intros _. split; [reflexivity | exact Hbottom].
    + intros Hf. congruence.
  - cbv zeta in Hf, Hb. split; [congruence |]. split; [reflexivity |]. split.
    + intros Hf'. congruence.
    + intros _. exists c. split; [| exact Hb].
      apply filter_In in Hin. apply Hin.
Qed.

Lemma falling_block_carries_player_witness :
  let after := FallingBlock.update Scene.falling_block (Scene.player_at 110 70)
                 [Scene.floor_at 100 150] in
  bottom (rect (snd after))
  = top (rect Scene.falling_block) + FallingBlock.vel Scene.falling_block
  /\ x (rect (snd after)) = x (rect (Scene.player_at 110 70)).
Proof.
  cbv zeta.
  destruct (falling_block_carries_player Scene.falling_block (Scene.player_at 110 70)
              [Scene.floor_at 100 150]) as (Hb & Hx & _).
  - vm_compute. reflexivity.
  - reflexivity.
  - vm_compute. reflexivity.
  - split; [exact Hb | exact Hx].
Defined.

(** ** The ladder *)

(** X21. Grabbing a ladder: when an entity that is not JUMPING overlaps
    the ladder's sensor rect while Up or Down is held, the update leaves it
    HANGING with its horizontal center on the sensor's center, keeps its y,
    size and velocities, and the entity still overlaps the sensor (rects of
    positive width, non-negative height). *)
Theorem ladder_grab_centers_entity
  (self : LadderBlock.t) (entity : Entity) (current_keys : Key -> bool) :
  0 < width (rect entity) -> 0 <= height (rect entity) ->
  0 < width (LadderBlock.mid_rect self) -> 0 <= height (LadderBlock.mid_rect self) ->
  colliderect (LadderBlock.mid_rect self) (rect entity) = true ->
  state entity <> JUMPING ->
  current_keys K_UP || current_keys K_DOWN = true ->
  let entity' := LadderBlock.update self entity current_keys in
  state entity' = HANGING
  /\ centerx (rect entity') = centerx (LadderBlock.mid_rect self)
  /\ y (rect entity') = y (rect entity)
  /\ width (rect entity') = width (rect entity)
  /\ height (rect entity') = height (rect entity)
  /\ x_velocity entity' = x_velocity entity
  /\ y_velocity entity' = y_velocity entity
  /\ colliderect (LadderBlock.mid_rect self) (rect entity') = true.
Proof.
  intros Hw Hh Hmw Hmh Hcol Hs Hkeys. cbv zeta. unfold LadderBlock.update.
  rewrite Hcol, Hkeys. unfold state_is.
  rewrite bool_decide_eq_false_2 by exact Hs. cbn [negb andb].
  destruct self as [b [mx my mw mh]].
  destruct entity as [vx vy d s [rx ry rw rh] ms].
  unfold rect, Entity_sprite, on_rect, set_rect, set_centerx, set_x, centerx in *.
  cbn in *.
  repeat split; try lia.
  apply (colliderect_legal (mkRect mx my mw mh) (mkRect rx ry rw rh)) in Hcol;
    [| split; cbn; lia | split; cbn; lia].
  apply (colliderect_legal (mkRect mx my mw mh)
           (mkRect (mx + mw / 2 - rw / 2) ry rw rh));
    [split; cbn; lia | split; cbn; lia |].
  unfold left, right, top, bottom in *. cbn in *.
  pose proof (Z.div_mod mw 2 ltac:(lia)) as Hd1.
  pose proof (Z.mod_pos_bound mw 2 ltac:(lia)) as Hm1.
  pose proof (Z.div_mod rw 2 ltac:(lia)) as Hd2.
  pose proof (Z.mod_pos_bound rw 2 ltac:(lia)) as Hm2.
  lia.
Qed.

Lemma ladder_grab_centers_entity_witness :
  state (LadderBlock.update Scene.ladder (Scene.player_at 95 90) Scene.up_only) = HANGING
  /\ centerx (rect (LadderBlock.update Scene.ladder (Scene.player_at 95 90) Scene.up_only))
     = centerx (LadderBlock.mid_rect Scene.ladder).
Proof.
  destruct (ladder_grab_centers_entity Scene.ladder (Scene.player_at 95 90) Scene.up_only)
    as (Hs & Hc & _).
  - vm_compute. reflexivity.
  - vm_compute. intros H. discriminate H.
  - vm_compute. reflexivity.
  - vm_compute. intros H. discriminate H.
  - vm_compute. reflexivity.
  - discriminate.
  - reflexivity.
  - split; [exact Hs | exact Hc].
Defined.

(** The sensor of a ladder built by [LadderBlock.__init__] is one pixel
    wide, as tall as the block, and sits one pixel left of the block's
    center when that center is positive. *)
Lemma ladder_sensor (type_object : TerrainType) (bx by_ : Z) :
  let self := LadderBlock.init type_object bx by_ in
  width (LadderBlock.mid_rect self) = 1
  /\ height (LadderBlock.mid_rect self) = height (rect (LadderBlock.block self))
  /\ y (LadderBlock.mid_rect self) = top (rect (LadderBlock.block self))
  /\ (0 < centerx (rect (LadderBlock.block self)) ->
      x (LadderBlock.mid_rect self) = centerx (rect (LadderBlock.block self)) - 1).
Proof.
  cbv zeta. unfold LadderBlock.init, Rect_of_floats. cbn [LadderBlock.mid_rect
    LadderBlock.block width height x y].
  set (b := Block_init type_object bx by_).
  assert (Hint : forall z : Z, py_int (inject_Z z) = z).
  { intros z. unfold py_int. destruct (Qle_bool 0 (inject_Z z));
      [apply Qfloor_Z | apply Qceiling_Z]. }
  rewrite !Hint. repeat split.
  intros Hc.
  assert (H1 : 1 <= centerx (rect b)) by lia.
  rewrite Zle_Qle in H1. change (inject_Z 1) with 1%Q in H1.
  assert (H0 : (0 <= inject_Z (centerx (rect b)) - 0.5)%Q)
    by lra.
  rewrite py_int_nonneg by exact H0. apply Qfloor_unique.
  assert (Hpred : (inject_Z (centerx (rect b) - 1) == inject_Z (centerx (rect b)) - 1)%Q).
  { unfold Z.sub. rewrite inject_Z_plus. change (inject_Z (- (1))) with (- (1))%Q. ring. }
  replace (centerx (rect b) - 1 + 1) with (centerx (rect b)) by lia.
  split; lra.
Qed.

(** ** The moving block keeps its rider *)

(** X22. The pairing of the moving block sustains itself: if the player
    stands on the block (feet on its top, a lateral edge strictly inside,
    neither HANGING nor CLIMBING) and is narrower than the block, then
    after [MovingBlock.update] the same contact holds again, so the block
    goes on stepping every tick until something else moves the player. *)
Theorem moving_block_contact_persists
  (self : MovingBlock.t) (player : Entity) (is_pressed : Key -> bool) :
  top (rect (MovingBlock.block self)) = bottom (rect player) ->
  lateral_edge_inside (rect (MovingBlock.block self)) (rect player) = true ->
  state player <> HANGING ->
  state player <> CLIMBING ->
  0 < width (rect player) < width (rect (MovingBlock.block self)) ->
  let after := MovingBlock.update self player is_pressed in
  top (rect (MovingBlock.block (fst after))) = bottom (rect (snd after))
  /\ lateral_edge_inside (rect (MovingBlock.block (fst after))) (rect (snd after)) = true
  /\ state (snd after) = state player.
Proof.
  intros Htouch Hedge Hh Hc Hw. cbv zeta. unfold MovingBlock.update.
  apply Z.eqb_eq in Htouch. rewrite Htouch, Hedge.
  assert (Hst : negb (state_is (state player) HANGING)
                && negb (state_is (state player) CLIMBING) = true).
  { unfold state_is. rewrite !bool_decide_eq_false_2 by assumption. reflexivity. }
  rewrite Hst. simpl andb. cbv iota.
  apply Z.eqb_eq in Htouch.
  destruct self as [[[bx by_ bw bh] spike] v].
  destruct player as [vx vy d s [rx ry rw rh] ms].
  unfold MovingBlock.on_block_rect, on_rect, set_rect, set_bottom, set_x, set_y,
    rect, Block_sprite, Entity_sprite, top, bottom, direction_is,
    lateral_edge_inside, left, right in *.
  cbn in *.
  destruct d, (is_pressed K_UP), (is_pressed K_DOWN); simpl;
    repeat split; lia.
Qed.

Lemma moving_block_contact_persists_witness :
  let player := set_state WALKING (Scene.player_at 110 70) in
  let after := MovingBlock.update Scene.moving_block player Scene.up_only in
  top (rect (MovingBlock.block (fst after))) = bottom (rect (snd after))
  /\ lateral_edge_inside (rect (MovingBlock.block (fst after))) (rect (snd after)) = true.
Proof.
  cbv zeta.
  destruct (moving_block_contact_persists Scene.moving_block
              (set_state WALKING (Scene.player_at 110 70)) Scene.up_only)
    as (Ht & He & _).
  - vm_compute. reflexivity.
  - vm_compute. reflexivity.
  - discriminate.
  - discriminate.
  - vm_compute. split; reflexivity.
  - split; [exact Ht | exact He].
Defined.

(** ** Spikes, tick after tick *)

Lemma spike_update_without_overlap (self : Block) (player : Entity) :
  colliderect (rect self) (rect player) = false ->
  SpikeBlock.update self player
  = when (lateral_edge_inside (rect self) (rect player)
          && (top (rect self) =? bottom (rect player)))
      (message LAND_ON_SPIKE) player.
Proof. intros H. unfold SpikeBlock.update. rewrite H. reflexivity. Qed.

(** X23. Spikes hurt on every tick: a second [SpikeBlock.update] on the
    player the first one returned moves nothing, and sends LAND_ON_SPIKE
    again exactly when the first update sent it (legal rects). *)
Theorem spike_update_repeats (self : Block) (player : Entity) :
  legal (rect self) ->
  legal (rect player) ->
  let once := SpikeBlock.update self player in
  let twice := SpikeBlock.update self once in
  rect twice = rect once
  /\ (messages once = messages player ++ [LAND_ON_SPIKE] ->
      messages twice = messages once ++ [LAND_ON_SPIKE])
  /\ (messages once = messages player -> messages twice = messages once).
Proof.
  intros Hs Hp. cbv zeta.
  destruct (spike_snap_spec self player Hs Hp) as (Hfree & _ & Hmsg).
  cbv zeta in Hfree, Hmsg.
  assert (Honce : SpikeBlock.update self player
                  = when (lateral_edge_inside (rect self)
                            (rect (when (colliderect (rect self) (rect player))
                                     (on_rect (set_bottom (top (rect self)))) player))
                          && (top (rect self)
                              =? bottom (rect (when (colliderect (rect self) (rect player))
                                                 (on_rect (set_bottom (top (rect self))))
                                                 player))))
                      (message LAND_ON_SPIKE)
                      (when (colliderect (rect self) (rect player))
                         (on_rect (set_bottom (top (rect self)))) player))
    by reflexivity.
  set (snapped := when (colliderect (rect self) (rect player)) _ player) in *.
  set (hurt := lateral_edge_inside (rect self) (rect snapped)
               && (top (rect self) =? bottom (rect snapped))) in *.
  assert (Hrect : rect (SpikeBlock.update self player) = rect snapped)
    by (rewrite Honce; unfold when; destruct hurt; reflexivity).
  rewrite (spike_update_without_overlap self (SpikeBlock.update self player))
    by (rewrite Hrect; exact Hfree).
  rewrite Hrect. fold hurt. rewrite Honce.
  unfold when. destruct hurt; cbn [messages message rect Entity_sprite entity_rect].
  - rewrite Hmsg. repeat split; auto.
    intros H. exfalso. symmetry in H. exact (snoc_neq _ _ H).
  - rewrite Hmsg. repeat split; auto;
      intros H; exfalso; exact (snoc_neq _ _ H).
Qed.

Lemma spike_update_repeats_witness :
  messages (SpikeBlock.update Scene.spikes
              (SpikeBlock.update Scene.spikes (Scene.player_at 115 110)))
  = messages (SpikeBlock.update Scene.spikes (Scene.player_at 115 110))
    ++ [LAND_ON_SPIKE].
Proof.
  assert (Hs : legal (rect Scene.spikes)) by now vm_compute.
  assert (Hp : legal (rect (Scene.player_at 115 110))) by now vm_compute.
  destruct (spike_update_repeats Scene.spikes (Scene.player_at 115 110) Hs Hp)
    as (_ & Hagain & _).
  apply Hagain. vm_compute. reflexivity.
Defined.

(** ** The gateway and the sizes *)

(** X24. Whenever the player's rect is strictly smaller than the gateway's
    box in both dimensions, a posted level switch implies that the player's
    center is inside the gateway's box (the converse fails). *)
Theorem gateway_post_implies_center_inside_when_smaller
  (self : Block) (player : Entity) (queue : list GameEvent) :
  0 <= width (rect player) < width (rect self) ->
  0 <= height (rect player) < height (rect self) ->
  GatewayBlock.update self player queue = queue ++ [SWITCH_LEVEL] ->
  collidepoint (rect self) (centerx (rect player)) (centery (rect player)) = true.
Proof.
  intros Hw Hh H. unfold GatewayBlock.update in H.
  destruct (collidepoint (rect player) _ _) eqn:Hin;
    [| exfalso; exact (snoc_neq _ _ H)].
  apply collidepoint_spec in Hin. apply collidepoint_spec.
  unfold left, right, top, bottom, centerx, centery in *.
  pose proof (Z.div_mod (width (rect self)) 2 ltac:(lia)).
  pose proof (Z.mod_pos_bound (width (rect self)) 2 ltac:(lia)).
  pose proof (Z.div_mod (height (rect self)) 2 ltac:(lia)).
  pose proof (Z.mod_pos_bound (height (rect self)) 2 ltac:(lia)).
  pose proof (Z.div_mod (width (rect player)) 2 ltac:(lia)).
  pose proof (Z.mod_pos_bound (width (rect player)) 2 ltac:(lia)).
  pose proof (Z.div_mod (height (rect player)) 2 ltac:(lia)).
  pose proof (Z.mod_pos_bound (height (rect player)) 2 ltac:(lia)).
  lia.
Qed.

Lemma gateway_post_implies_center_inside_when_smaller_witness :
  collidepoint (rect Scene.gateway)
    (centerx (rect (Scene.player_at 100 105)))
    (centery (rect (Scene.player_at 100 105))) = true.
Proof.
  apply (gateway_post_implies_center_inside_when_smaller Scene.gateway
           (Scene.player_at 100 105) []).
  - vm_compute. split; [intros H; discriminate H | reflexivity].
  - vm_compute. split; [intros H; discriminate H | reflexivity].
  - vm_compute. reflexivity.
Defined.

(** ** The pushable block *)

Lemma x_settle_frame (self : PushableBlock.t) (c : Block) :
  let self' := PushableBlock.x_settle self c in
  y (rect self') = y (rect self)
  /\ width (rect self') = width (rect self)
  /\ height (rect self') = height (rect self)
  /\ PushableBlock.y_velocity self' = PushableBlock.y_velocity self
  /\ PushableBlock.gravity self' = PushableBlock.gravity self.
Proof.
  cbv zeta. unfold PushableBlock.x_settle, when.
  match goal with |- context [if ?b then _ else _] => destruct b end;
    match goal with |- context [if ?b then _ else _] => destruct b end;
    repeat split; reflexivity.
Qed.

Lemma y_settle_frame (self : PushableBlock.t) (c : Block) :
  let self' := PushableBlock.y_settle self c in
  x (rect self') = x (rect self)
  /\ width (rect self') = width (rect self)
  /\ height (rect self') = height (rect self)
  /\ PushableBlock.gravity self' = PushableBlock.gravity self
  /\ (self' = self \/ PushableBlock.y_velocity self' = 0).
Proof.
  cbv zeta. unfold PushableBlock.y_settle, when.
  match goal with |- context [if ?b then _ else _] => destruct b end;
    match goal with |- context [if ?b then _ else _] => destruct b end;
    repeat split; try reflexivity; auto.
Qed.

Lemma fold_x_settle_frame (blocks : list Block) (self : PushableBlock.t) :
  let self' := fold_left PushableBlock.x_settle blocks self in
  y (rect self') = y (rect self)
  /\ width (rect self') = width (rect self)
  /\ height (rect self') = height (rect self)
  /\ PushableBlock.y_velocity self' = PushableBlock.y_velocity self
  /\ PushableBlock.gravity self' = PushableBlock.gravity self.
Proof.
  cbv zeta.
  apply (fold_left_invariant
           (fun s => y (rect s) = y (rect self)
                     /\ width (rect s) = width (rect self)
                     /\ height (rect s) = height (rect self)
                     /\ PushableBlock.y_velocity s = PushableBlock.y_velocity self
                     /\ PushableBlock.gravity s = PushableBlock.gravity self)).
  - repeat split; reflexivity.
  - intros s c (H1 & H2 & H3 & H4 & H5).
    destruct (x_settle_frame s c) as (F1 & F2 & F3 & F4 & F5). cbv zeta in *.
    repeat split; congruence.
Qed.

Lemma fold_y_settle_frame (blocks : list Block) (self : PushableBlock.t) :
  let self' := fold_left PushableBlock.y_settle blocks self in
  x (rect self') = x (rect self)
  /\ width (rect self') = width (rect self)
  /\ height (rect self') = height (rect self)
  /\ PushableBlock.gravity self' = PushableBlock.gravity self
  /\ (self' = self \/ PushableBlock.y_velocity self' = 0).
Proof.
  cbv zeta.
  apply (fold_left_invariant
           (fun s => x (rect s) = x (rect self)
                     /\ width (rect s) = width (rect self)
                     /\ height (rect s) = height (rect self)
                     /\ PushableBlock.gravity s = PushableBlock.gravity self
                     /\ (s = self \/ PushableBlock.y_velocity s = 0))).
  - repeat split; auto.
  - intros s c (H1 & H2 & H3 & H4 & H5).
    destruct (y_settle_frame s c) as (F1 & F2 & F3 & F4 & F5). cbv zeta in *.
    repeat split; try congruence.
    destruct F5 as [-> | F5]; [exact H5 | right; exact F5].
Qed.

(** One sprite of the second loop either leaves the block as it is or
    stops it against one of its own horizontal edges. *)
Lemma y_settle_cases (self : PushableBlock.t) (c : Block) :
  let self' := PushableBlock.y_settle self c in
  self' = self
  \/ PushableBlock.y_velocity self' = 0
     /\ (top (rect self') = bottom (rect c) \/ bottom (rect self') = top (rect c)).
Proof.
  cbv zeta. unfold PushableBlock.y_settle, when.
  destruct ((top (rect c) <? top (rect self)) && (top (rect self) <? bottom (rect c))).
  - right.
    match goal with |- context [if ?b then _ else _] => destruct b end.
    + split; [reflexivity |]. right. apply set_bottom_bottom.
    + split; [reflexivity |]. left. reflexivity.
  - match goal with |- context [if ?b then _ else _] => destruct b end.
    + right. split; [reflexivity |]. right. apply set_bottom_bottom.
    + left. reflexivity.
Qed.

(** The second loop either leaves the block as it found it or ends with
    the block at rest against an edge of one of the sprites of the list. *)
Lemma fold_y_settle_cases (blocks : list Block) (self : PushableBlock.t) :
  let self' := fold_left PushableBlock.y_settle blocks self in
  self' = self
  \/ PushableBlock.y_velocity self' = 0
     /\ exists c, In c blocks
                  /\ (top (rect self') = bottom (rect c)
                      \/ bottom (rect self') = top (rect c)).
Proof.
  cbv zeta. revert self.
  induction blocks as [| b blocks IH]; intros self; cbn [fold_left]; [left; reflexivity |].
  destruct (IH (PushableBlock.y_settle self b)) as [Heq | (Hv & c & Hin & Hedge)].
  - rewrite Heq.
    destruct (y_settle_cases self b) as [Hsame | [Hv Hedge]]; cbv zeta in *.
    + left. exact Hsame.
    + right. split; [exact Hv |]. exists b. split; [left; reflexivity | exact Hedge].
  - right. split; [exact Hv |]. exists c. split; [right; exact Hin | exact Hedge].
Qed.

(** X26. The pushable block under gravity, whatever integer pygame stores
    for the pushed coordinate.  An update keeps the size and the gravity of
    the block.  Either it has added the gravity to the velocity and moved
    the block down by the new velocity; or it ends with vertical velocity
    0, and then a sprite of the terrain group that overlaps the block at
    the height it fell to has stopped it: the block's top is on the
    sprite's bottom edge or its bottom on the sprite's top edge. *)
Theorem pushable_block_falls_or_stops
  (rect_coordinate : PrimFloat.float -> Z)
  (self : PushableBlock.t) (player : Entity) (terrain_group : list Block) :
  let self' := PushableBlock.update rect_coordinate self player terrain_group in
  let v := PushableBlock.y_velocity self + PushableBlock.gravity self in
  let fallen := mkRect (x (rect self')) (y (rect self) + v)
                  (width (rect self)) (height (rect self)) in
  width (rect self') = width (rect self)
  /\ height (rect self') = height (rect self)
  /\ PushableBlock.gravity self' = PushableBlock.gravity self
  /\ (PushableBlock.y_velocity self' = v /\ rect self' = fallen
      \/ PushableBlock.y_velocity self' = 0
         /\ exists c, In c terrain_group
                      /\ colliderect fallen (rect c) = true
                      /\ (top (rect self') = bottom (rect c)
                          \/ bottom (rect self') = top (rect c))).
Proof.
  cbv zeta. unfold PushableBlock.update.
  set (s1 := when (PushableBlock.is_pushed self player)
               (fun self0 => PushableBlock.push rect_coordinate self0 player) self).
  assert (H1 : y (rect s1) = y (rect self) /\ width (rect s1) = width (rect self)
               /\ height (rect s1) = height (rect self)
               /\ PushableBlock.y_velocity s1 = PushableBlock.y_velocity self
               /\ PushableBlock.gravity s1 = PushableBlock.gravity self).
  { unfold s1, when. destruct (PushableBlock.is_pushed self player);
      repeat split; reflexivity. }
  destruct (fold_x_settle_frame (spritecollide s1 terrain_group) s1)
    as (X1 & X2 & X3 & X4 & X5).
  cbv zeta in *.
  set (s2 := fold_left PushableBlock.x_settle (spritecollide s1 terrain_group) s1) in *.
  set (s3 := PushableBlock.set_y_velocity
               (PushableBlock.y_velocity s2 + PushableBlock.gravity s2) s2).
  set (s4 := PushableBlock.on_block_rect
               (fun r => set_y (y r + PushableBlock.y_velocity s3) r) s3).
  destruct (fold_y_settle_frame (spritecollide s4 terrain_group) s4)
    as (Y1 & Y2 & Y3 & Y4 & _).
  destruct (fold_y_settle_cases (spritecollide s4 terrain_group) s4) as [Y5 | Y5].
  all: cbv zeta in *.
  all: destruct H1 as (A1 & A2 & A3 & A4 & A5).
  all: assert (B2 : width (rect s4) = width (rect s2)) by reflexivity.
  all: assert (B3 : height (rect s4) = height (rect s2)) by reflexivity.
  all: assert (B5 : PushableBlock.gravity s4 = PushableBlock.gravity s2) by reflexivity.
  all: assert (B4 : PushableBlock.y_velocity s4
                    = PushableBlock.y_velocity s2 + PushableBlock.gravity s2)
         by reflexivity.
  all: assert (B1 : y (rect s4)
                    = y (rect s2)
                      + (PushableBlock.y_velocity s2 + PushableBlock.gravity s2))
         by reflexivity.
  all: assert (Hfallen : rect s4
                         = mkRect (x (rect (fold_left PushableBlock.y_settle
                                              (spritecollide s4 terrain_group) s4)))
                             (y (rect self)
                              + (PushableBlock.y_velocity self + PushableBlock.gravity self))
                             (width (rect self)) (height (rect self)))
         by (rewrite Y1; destruct (rect s4) as [rx ry rw rh] eqn:Hr; cbn in *;
             f_equal; congruence).
  all: split; [congruence |]; split; [congruence |]; split; [congruence |].
  - left. rewrite Y5 at 1 2. split; [congruence | exact Hfallen].
  - right. destruct Y5 as (Hv & c & Hin & Hedge).
    apply filter_In in Hin as [Hin Hcol].
    split; [exact Hv |]. exists c.
    split; [exact Hin |]. split; [| exact Hedge].
    rewrite <- Hfallen. exact Hcol.
Qed.

Example pushable_block_falls_or_stops_example :
  let truncate := int_of_float in
  let resting := PushableBlock.update truncate Scene.pushable
                   (Scene.player_at 0 0) [Scene.floor_at 100 100] in
  let falling := PushableBlock.update truncate Scene.pushable
                   (Scene.player_at 0 0) [] in
  rect Scene.pushable = mkRect 100 75 25 25
  /\ rect resting = mkRect 100 75 25 25
  /\ PushableBlock.y_velocity resting = 0
  /\ rect falling = mkRect 100 77 25 25
  /\ PushableBlock.y_velocity falling = 2.
Proof. cbv zeta. vm_compute. repeat split. Qed.
